(** * Color-preserving vectorization pipeline (python-service)

    A shallow embedding of the pipeline stages of [python-service/pipeline]
    and of the request handler of [python-service/app_color.py]:

    - stage 2, [pipeline/color_cleanup.py]: palette extraction and flattening;
    - stage 3, [pipeline/segmentation.py]: per-colour region masks;
    - stage 4, [pipeline/vectorization.py]: tracing and compositing;
    - the handler [process_image] of [app_color.py] from stage 2 onwards;
    - stage 1, [pipeline/preprocessing.py]: the threshold fallback of the
      background removal and the choice between it and [rembg];
    - stage 5, [pipeline/postprocessing.py]: the metadata comment;
    - the monochrome pipeline of [app.py]: the user's exclusion mask, the
      noise cleanup, the tracer and the handler from the binarized image on;
    - the temporary files of the tracer of stage 4.

    NumPy arrays are lists of rows.  The external collaborators (scikit-learn's
    k-means, the potrace process, Python's [re] engine, the clock, [rembg],
    the colour conversions and filters of OpenCV, the file system) are
    variables of the sections that use them.  The morphological operators and
    thresholds of OpenCV are written out from their documented pixel formulas.
    An image and its mask have one shape, as stage 1 returns them; what NumPy
    and OpenCV raise on arrays of different shapes is modelled for the user's
    exclusion mask only.  A percentage is the exact quotient the float stands
    for. *)

From Stdlib Require Import ZArith List String Ascii Bool Lia QArith Qround.
From Stdlib Require Import Sorted Permutation DecimalString.
Import ListNotations.

Local Open Scope Z_scope.

(** ** NumPy arrays as lists of rows *)

Module np.

(** A 2-D array, row-major: [a[y][x]]. *)
Definition array2 (A : Type) := list (list A).

(** [a.shape[0]] and [a.shape[1]]. *)
Definition rows {A} (a : array2 A) : nat := List.length a.
Definition cols {A} (a : array2 A) : nat := List.length (hd [] a).

(** The array whose entry at row [y], column [x] is [f y x]. *)
Definition build {A} (h w : nat) (f : nat -> nat -> A) : array2 A :=
  map (fun y => map (fun x => f y x) (seq 0 w)) (seq 0 h).

(** The entry at signed coordinates [(y, x)], if the array has one. *)
Definition entry {A} (a : array2 A) (y x : Z) : option A :=
  if (0 <=? y) && (0 <=? x)
  then match nth_error a (Z.to_nat y) with
       | Some row => nth_error row (Z.to_nat x)
       | None => None
       end
  else None.

(** The entry, or [d] outside the array: how a filter window reads past
    the border. *)
Definition getZ {A} (d : A) (a : array2 A) (y x : Z) : A :=
  match entry a y x with
  | Some v => v
  | None => d
  end.

(** An array of the shape of [a] whose entry at [(y, x)] is [f y x]. *)
Definition imap {A B} (f : Z -> Z -> B) (a : array2 A) : array2 B :=
  map (fun yr : nat * list A =>
         map (fun x => f (Z.of_nat (fst yr)) (Z.of_nat x))
             (seq 0 (List.length (snd yr))))
      (combine (seq 0 (List.length a)) a).

(** Entry-wise combination of two arrays of one shape. *)
Definition zip_with {A B C} (f : A -> B -> C) (a : array2 A) (b : array2 B)
  : array2 C :=
  map (fun rr : list A * list B =>
         map (fun vv : A * B => f (fst vv) (snd vv)) (combine (fst rr) (snd rr)))
      (combine a b).

(** [np.sum(a > t)] *)
Definition count_gt (t : Z) (a : array2 Z) : nat :=
  list_sum (map (fun r => List.length (filter (fun v => t <? v) r)) a).

(** [a[mask > 128]]: the selected entries in row-major order. *)
Definition select {A} (a : array2 A) (mask : array2 Z) : list A :=
  List.concat (map (fun rm : list A * list Z =>
                      map fst (filter (fun pv : A * Z => 128 <? snd pv)
                                      (combine (fst rm) (snd rm))))
                   (combine a mask)).

End np.

(** A mask is a grid of bytes; a pixel is set when its value is above 128. *)
Definition Mask := np.array2 Z.

(** A colour pixel, in OpenCV's blue-green-red order. *)
Definition Pixel := (Z * Z * Z)%type.
Definition Image := np.array2 Pixel.

Definition is_set (m : Mask) (y x : Z) : Prop := 128 < np.getZ 0 m y x.

(** Every entry of the mask is a byte. *)
Definition is_u8 (m : Mask) : Prop :=
  Forall (Forall (fun v => 0 <= v <= 255)) m.

(** ** The OpenCV operators used by the pipeline *)

Module cv2.

(** Offsets of a [np.ones((k, k))] kernel around its default anchor, the
    kernel centre [k / 2]: for [k = 2] these are [-1; 0], for [k = 3]
    [-1; 0; 1]. *)
Definition offsets (k : nat) : list Z :=
  map (fun i => Z.of_nat i - Z.of_nat (k / 2)) (seq 0 k).

Definition window (k : nat) : list (Z * Z) :=
  list_prod (offsets k) (offsets k).

(** [cv2.erode]: [dst(x, y)] is the minimum of [src(x + x', y + y')] over
    the kernel window placed at the anchor; pixels outside the image do not
    lower the minimum (the default border value). *)
Definition erode (k : nat) (m : Mask) : Mask :=
  np.imap (fun y x =>
             fold_right (fun o acc => Z.min (np.getZ 255 m (y + fst o) (x + snd o)) acc)
                        255 (window k)) m.

(** [cv2.dilate]: the maximum over the same window; pixels outside the
    image do not raise the maximum. *)
Definition dilate (k : nat) (m : Mask) : Mask :=
  np.imap (fun y x =>
             fold_right (fun o acc => Z.max (np.getZ 0 m (y + fst o) (x + snd o)) acc)
                        0 (window k)) m.

Inductive MorphOp := MORPH_OPEN | MORPH_CLOSE.

(** [cv2.morphologyEx(m, op, np.ones((k, k)), iterations=n)]: an opening
    erodes [n] times and then dilates [n] times, a closing the reverse. *)
Definition morphologyEx (m : Mask) (op : MorphOp) (k : nat) (iterations : nat) : Mask :=
  match op with
  | MORPH_OPEN => Nat.iter iterations (dilate k) (Nat.iter iterations (erode k) m)
  | MORPH_CLOSE => Nat.iter iterations (erode k) (Nat.iter iterations (dilate k) m)
  end.

(** [cv2.inRange(image, lower, upper)]: 255 where every channel lies in its
    closed interval, 0 elsewhere. *)
Definition inRange (image : Image) (lower upper : Pixel) : Mask :=
  map (map (fun p : Pixel =>
    let '(b, g, r) := p in
    let '(lb, lg, lr) := lower in
    let '(ub, ug, ur) := upper in
    if (lb <=? b) && (b <=? ub) && (lg <=? g) && (g <=? ug)
       && (lr <=? r) && (r <=? ur)
    then 255 else 0)) image.

(** [cv2.bitwise_and(a, b)] on two masks of one shape. *)
Definition bitwise_and (a b : Mask) : Mask := np.zip_with Z.land a b.

End cv2.

(** ** Python helpers: strings, [list.sort], results *)

(** What a call that may raise gives back. *)
Inductive result (A : Type) : Type :=
| Returned (a : A)
| Raised (msg : string).
Arguments Returned {A} a.
Arguments Raised {A} msg.

Definition dq : string := String "034"%char EmptyString.
Definition nl : string := String "010"%char EmptyString.

(** [f"{n}"] for a non-negative [int]. *)
Definition str_of_nat (n : nat) : string := NilZero.string_of_uint (Nat.to_uint n).

Definition hex_digit (v : Z) : ascii :=
  nth (Z.to_nat v)
      ["0"; "1"; "2"; "3"; "4"; "5"; "6"; "7"; "8"; "9"; "a"; "b"; "c"; "d"; "e"; "f"]%char
      "?"%char.

(** [f"{v:02x}"] for a byte. *)
Definition format_02x (v : Z) : string :=
  String (hex_digit (v / 16)) (String (hex_digit (v mod 16)) EmptyString).

(** [s.replace(old, new)] for a non-empty [old]: every occurrence, left to
    right, without overlap.  [skip] counts the characters of a match still to
    be dropped. *)
Fixpoint replace_from (old new : string) (skip : nat) (s : string) : string :=
  match s with
  | EmptyString => EmptyString
  | String c s' =>
      match skip with
      | S k => replace_from old new k s'
      | O => if prefix old s
             then (new ++ replace_from old new (String.length old - 1) s')%string
             else String c (replace_from old new 0 s')
      end
  end.

Definition str_replace (s old new : string) : string := replace_from old new 0 s.

(** Truth value of a [str]: non-empty. *)
Definition truthy (s : string) : bool :=
  match s with EmptyString => false | _ => true end.

Section PySort.
Context {A K : Type} (key : A -> K) (leb : K -> K -> bool).

(** [l.sort(key=key, reverse=True)]: descending by key and stable, so an
    element stays in front of the later elements of equal key. *)
Fixpoint insert_desc (x : A) (l : list A) : list A :=
  match l with
  | [] => [x]
  | y :: l' => if leb (key y) (key x) then x :: l else y :: insert_desc x l'
  end.

Definition sort_reverse (l : list A) : list A := fold_right insert_desc [] l.
End PySort.

(** ** Stage 2: colour cleanup ([pipeline/color_cleanup.py]) *)

Record ColorInfo := mkColorInfo {
  rgb : Z * Z * Z;
  count : Z;
  percentage : Q;
  hex : string
}.

(** [ColorInfo.__init__]: the hex string is derived from the triple. *)
Definition ColorInfo_init (rgb : Z * Z * Z) (count : Z) (percentage : Q) : ColorInfo :=
  let '(r, g, b) := rgb in
  mkColorInfo rgb count percentage
              ("#" ++ format_02x r ++ format_02x g ++ format_02x b)%string.

(** [x.astype(np.uint8)] for a float: truncation towards zero, then the low
    eight bits. *)
Definition astype_uint8 (q : Q) : Z :=
  (if Qle_bool 0 q then Qfloor q else Qceiling q) mod 256.

(** Insertion into a strictly increasing list of labels. *)
Fixpoint insert_unique (v : nat) (l : list nat) : list nat :=
  match l with
  | [] => [v]
  | u :: l' => if (v <? u)%nat then v :: l
               else if (v =? u)%nat then l
               else u :: insert_unique v l'
  end.

(** [np.unique(labels, return_counts=True)]: the distinct labels in
    increasing order and how often each occurs. *)
Definition np_unique (labels : list nat) : list nat * list Z :=
  let unique := fold_right insert_unique [] labels in
  (unique, map (fun u => Z.of_nat (count_occ Nat.eq_dec labels u)) unique).

(** The fitted estimator: [cluster_centers_] (each float as the rational it
    denotes) and [labels_]. *)
Definition KMeansFit := (list (Q * Q * Q) * list nat)%type.

(** The loop of [extract_dominant_colors] over [enumerate(colors_bgr)], from
    index [i] on.  The percentage [(count / total_pixels) * 100] is kept as
    the exact quotient. *)
Fixpoint color_infos (counts : list Z) (total_pixels : Z) (min_color_percentage : Q)
         (i : nat) (colors_bgr : list Pixel) : list ColorInfo :=
  match colors_bgr with
  | [] => []
  | color_bgr :: rest =>
      let count := if (i <? List.length counts)%nat then nth i counts 0 else 0 in
      let percentage := (inject_Z count / inject_Z total_pixels * 100)%Q in
      let tail := color_infos counts total_pixels min_color_percentage (S i) rest in
      if Qle_bool min_color_percentage percentage
      then let '(b, g, r) := color_bgr in
           ColorInfo_init (r, g, b) count percentage :: tail
      else tail
  end.

(** Squared Euclidean distance of two pixels.  [flatten_colors] takes the
    float32 square root of it; on bytes the sum is below 2^24 and the
    rounded roots of different sums differ, so the order and the ties are
    those of the sums. *)
Definition sqdist (p c : Pixel) : Z :=
  let '(pb, pg, pr) := p in
  let '(cb, cg, cr) := c in
  (pb - cb) * (pb - cb) + (pg - cg) * (pg - cg) + (pr - cr) * (pr - cr).

(** [np.argmin]: index of the first least entry. *)
Fixpoint argmin_from (i best : nat) (least : Z) (ds : list Z) : nat :=
  match ds with
  | [] => best
  | d :: ds' => if d <? least then argmin_from (S i) i d ds'
                else argmin_from (S i) best least ds'
  end.

Definition argmin (ds : list Z) : nat :=
  match ds with
  | [] => O
  | d :: ds' => argmin_from 1 0 d ds'
  end.

Definition bgr_of (c : ColorInfo) : Pixel :=
  let '(r, g, b) := rgb c in (b, g, r).

Definition pixel_u8 (p : Pixel) : Pixel :=
  let '(b, g, r) := p in (b mod 256, g mod 256, r mod 256).

(** [flatten_colors]: only pixels under the mask are rewritten. *)
Definition flatten_colors (image : Image) (mask : Mask) (color_palette : list ColorInfo)
  : Image :=
  match color_palette with
  | [] => image
  | _ =>
      let palette_bgr := map bgr_of color_palette in
      let pixels := np.select image mask in
      if (List.length pixels =? 0)%nat then image
      else
        np.zip_with
          (fun (p : Pixel) (v : Z) =>
             if 128 <? v
             then pixel_u8 (nth (argmin (map (sqdist p) palette_bgr)) palette_bgr (0, 0, 0))
             else p)
          image mask
  end.

Section ColorCleanup.

(** [KMeans(n_clusters, random_state=42, n_init=10, max_iter=300).fit(pixels)] *)
Variable kmeans : nat -> list Pixel -> result KMeansFit.

Definition extract_dominant_colors (image : Image) (mask : Mask) (n_colors : Z)
           (min_color_percentage : Q) : result (list ColorInfo * Image) :=
  let n_colors := Z.max 3 (Z.min 7 n_colors) in
  let pixels := np.select image mask in
  let len_pixels := Z.of_nat (List.length pixels) in
  if len_pixels =? 0 then Returned ([], image)
  else
    let n_colors := if len_pixels <? n_colors then Z.max 1 len_pixels else n_colors in
    match kmeans (Z.to_nat n_colors) pixels with
    | Raised msg => Raised msg
    | Returned (cluster_centers, labels) =>
        let colors_bgr :=
          map (fun c : Q * Q * Q =>
                 let '(b, g, r) := c in
                 (astype_uint8 b, astype_uint8 g, astype_uint8 r)) cluster_centers in
        let counts := snd (np_unique labels) in
        let total_pixels := len_pixels in
        let color_info_list :=
          color_infos counts total_pixels min_color_percentage 0 colors_bgr in
        let color_info_list := sort_reverse percentage Qle_bool color_info_list in
        (* [color_mapped[mask_bool][i] = ...] writes into a temporary copy,
           so the foreground of [color_mapped] stays zero. *)
        let color_mapped :=
          map (map (fun v => if 128 <? v then (0, 0, 0) else (255, 255, 255))) mask in
        Returned (color_info_list, color_mapped)
    end.

Definition create_color_map (image : Image) (mask : Mask) (n_colors : Z)
  : result (list ColorInfo * Image) :=
  match extract_dominant_colors image mask n_colors 2 with
  | Raised msg => Raised msg
  | Returned (color_info_list, color_mapped) =>
      Returned (color_info_list, flatten_colors image mask color_info_list)
  end.

End ColorCleanup.

(** ** Stage 3: colour-based segmentation ([pipeline/segmentation.py]) *)

Record Bounds := mkBounds { bx : nat; by_ : nat; bwidth : nat; bheight : nat }.

Record ColorRegion := mkColorRegion {
  color_info : ColorInfo;
  region_mask : Mask;
  bounds : Bounds
}.

(** [np.where(mask > 128)]: the coordinates [(y, x)] of the set pixels. *)
Definition where_set (mask : Mask) : list (nat * nat) :=
  List.concat
    (map (fun yr : nat * list Z =>
            map (fun xv : nat * Z => (fst yr, fst xv))
                (filter (fun xv : nat * Z => 128 <? snd xv)
                        (combine (seq 0 (List.length (snd yr))) (snd yr))))
         (combine (seq 0 (List.length mask)) mask)).

Definition _calculate_bounds (mask : Mask) : Bounds :=
  match where_set mask with
  | [] => mkBounds 0 0 0 0
  | (y0, x0) :: rest =>
      let ys := map fst rest in
      let xs := map snd rest in
      let y_min := fold_right Nat.min y0 ys in
      let y_max := fold_right Nat.max y0 ys in
      let x_min := fold_right Nat.min x0 xs in
      let x_max := fold_right Nat.max x0 xs in
      mkBounds x_min y_min (x_max - x_min + 1) (y_max - y_min + 1)
  end.

(** [ColorRegion.__init__] *)
Definition ColorRegion_init (color_info : ColorInfo) (mask : Mask) : ColorRegion :=
  mkColorRegion color_info mask (_calculate_bounds mask).

(** Arithmetic on a [np.uint8] array wraps around. *)
Definition u8 (v : Z) : Z := v mod 256.

(** The mask of one palette colour as [extract_color_regions] computes it
    before the area test. *)
Definition color_mask_of (image : Image) (mask : Mask) (color_info : ColorInfo)
           (tolerance : Z) : Mask :=
  let '(r, g, b) := rgb color_info in
  let '(tb, tg, tr) := (u8 b, u8 g, u8 r) in
  let lower_bound := (Z.max (u8 (tb - tolerance)) 0,
                      Z.max (u8 (tg - tolerance)) 0,
                      Z.max (u8 (tr - tolerance)) 0) in
  let upper_bound := (Z.min (u8 (tb + tolerance)) 255,
                      Z.min (u8 (tg + tolerance)) 255,
                      Z.min (u8 (tr + tolerance)) 255) in
  let color_mask := cv2.inRange image lower_bound upper_bound in
  let color_mask := cv2.bitwise_and color_mask mask in
  let color_mask := cv2.morphologyEx color_mask cv2.MORPH_OPEN 2 1 in
  cv2.morphologyEx color_mask cv2.MORPH_CLOSE 2 1.

(** [np.sum(mask > 128)] *)
Definition area (mask : Mask) : nat := np.count_gt 128 mask.

Definition extract_color_regions (image : Image) (mask : Mask)
           (color_palette : list ColorInfo) (tolerance : Z) : list ColorRegion :=
  let regions :=
    flat_map (fun color_info =>
                let color_mask := color_mask_of image mask color_info tolerance in
                if (100 <? area color_mask)%nat
                then [ColorRegion_init color_info color_mask]
                else [])
             color_palette in
  sort_reverse (fun r => area (region_mask r)) Nat.leb regions.

Definition clean_boundaries (mask : Mask) (preserve_style : bool) : Mask :=
  if negb preserve_style then
    let mask := cv2.morphologyEx mask cv2.MORPH_OPEN 3 2 in
    cv2.morphologyEx mask cv2.MORPH_CLOSE 3 2
  else
    cv2.morphologyEx mask cv2.MORPH_OPEN 2 1.

(** [region.mask = ...]: the assignment replaces the mask only; the bounds
    computed by the constructor stay as they were. *)
Definition set_mask (region : ColorRegion) (mask : Mask) : ColorRegion :=
  mkColorRegion (color_info region) mask (bounds region).

Definition segment_by_color (image : Image) (mask : Mask)
           (color_palette : list ColorInfo) (preserve_style : bool) : list ColorRegion :=
  let regions := extract_color_regions image mask color_palette 10 in
  map (fun region =>
         set_mask region (clean_boundaries (region_mask region) preserve_style))
      regions.

(** ** Stage 4: vectorization ([pipeline/vectorization.py]) *)

(** How the [try] block around the potrace call ends: an exception (timeout,
    non-zero exit, missing binary, I/O error), no output file, or the text of
    the output file. *)
Inductive TraceRun :=
| TraceRaised
| NoOutputFile
| OutputFile (svg_content : string).

Section Vectorization.

(** The potrace process on the inverted bitmap, with its [--turdsize],
    [--opttolerance] and [--color] arguments. *)
Variable potrace : Mask -> string -> string -> string -> TraceRun.

(** The list [paths] that the [re.finditer] loop of
    [extract_paths_from_svg] builds from a non-empty document. *)
Variable find_paths : string -> list string.

(** [re.sub(pattern, repl, s)] for the pattern of a fill attribute with any
    value, as [re_sub_fill repl s]. *)
Variable re_sub_fill : string -> string -> string.

Definition vectorize_mask_to_svg (mask : Mask) (color_hex : string)
           (width height : nat) (preserve_style : bool) : string :=
  let mask_inverted := map (map (fun v => 255 - v)) mask in
  let opttolerance := (if preserve_style then "0.2" else "0.4")%string in
  let turdsize := (if preserve_style then "3" else "5")%string in
  match potrace mask_inverted turdsize opttolerance color_hex with
  | TraceRaised => EmptyString
  | NoOutputFile => EmptyString
  | OutputFile svg_content => svg_content
  end.

Definition extract_paths_from_svg (svg_content : string) : string :=
  if negb (truthy svg_content) then EmptyString
  else match find_paths svg_content with
       | [] => EmptyString
       | paths => String.concat nl paths
       end.

Definition fill_attr (color_hex : string) : string :=
  ("fill=" ++ dq ++ color_hex ++ dq)%string.

(** What one pass of the loop of [vectorize_regions] appends to
    [svg_parts]. *)
Definition region_parts (region : ColorRegion) (image_width image_height : nat)
           (preserve_style : bool) : list string :=
  let color_hex := hex (color_info region) in
  let svg_content :=
    vectorize_mask_to_svg (region_mask region) color_hex image_width image_height
                          preserve_style in
  if truthy svg_content then
    let paths := extract_paths_from_svg svg_content in
    if truthy paths then
      let paths_colored :=
        str_replace paths ("fill=" ++ dq ++ "black" ++ dq)%string (fill_attr color_hex) in
      let paths_colored := re_sub_fill (fill_attr color_hex) paths_colored in
      [("<g " ++ fill_attr color_hex ++ " stroke=" ++ dq ++ "none" ++ dq ++ ">")%string;
       paths_colored;
       "</g>"%string]
    else []
  else [].

Definition svg_open_tag (image_width image_height : nat) : string :=
  ("<svg xmlns=" ++ dq ++ "http://www.w3.org/2000/svg" ++ dq
     ++ " width=" ++ dq ++ str_of_nat image_width ++ dq
     ++ " height=" ++ dq ++ str_of_nat image_height ++ dq
     ++ " viewBox=" ++ dq ++ "0 0 " ++ str_of_nat image_width ++ " "
     ++ str_of_nat image_height ++ dq ++ ">")%string.

(** The list [svg_parts] when [vectorize_regions] joins it. *)
Definition svg_parts (regions : list ColorRegion) (image_width image_height : nat)
           (preserve_style : bool) : list string :=
  let parts := [svg_open_tag image_width image_height;
                ("<g id=" ++ dq ++ "drawing" ++ dq ++ ">")%string] in
  let parts :=
    fold_left (fun parts region =>
                 parts ++ region_parts region image_width image_height preserve_style)
              regions parts in
  let parts := parts ++ ["</g>"%string] in
  parts ++ ["</svg>"%string].

Definition vectorize_regions (regions : list ColorRegion) (image_width image_height : nat)
           (preserve_style : bool) : string :=
  String.concat nl (svg_parts regions image_width image_height preserve_style).

End Vectorization.

(** ** Stage 5 and the request handler ([app_color.py]) *)

Definition optimize_svg_paths (svg_content : string) : string := svg_content.
Definition organize_svg_layers (svg_content : string) : string := svg_content.

(** The JSON body of a response, with its HTTP status; the elapsed time of a
    success response is left out. *)
Inductive Response :=
| Success200 (svg : string) (colors : list ColorInfo)
             (originalSize processedSize : nat * nat)
             (colorCount regionCount : nat) (style : string)
| Failure (status : nat) (error : string) (message : option string).

Section Handler.

Variable kmeans : nat -> list Pixel -> result KMeansFit.
Variable potrace : Mask -> string -> string -> string -> TraceRun.
Variable find_paths : string -> list string.
Variable re_sub_fill : string -> string -> string.

(** [add_metadata] of [pipeline/postprocessing.py]: the document with the
    metadata comment (palette, size, style, elapsed time) after its root
    tag. *)
Variable add_metadata : string -> list ColorInfo -> nat * nat -> string -> string.

Definition postprocess_svg (svg_content : string) (colors : list ColorInfo)
           (original_size : nat * nat) (style : string) : string :=
  let optimized := optimize_svg_paths svg_content in
  let organized := organize_svg_layers optimized in
  add_metadata organized colors original_size style.

(** [process_image] from the parsed options on: [bgr_image] and [mask] are
    what stage 1 returned for the upload, [colorCount] the form field. *)
Definition process_image (original_size : nat * nat) (bgr_image : Image) (mask : Mask)
           (colorCount : Z) (preserve_style : bool) : Response :=
  let color_count := Z.max 3 (Z.min 7 colorCount) in
  let processed_width := np.cols bgr_image in
  let processed_height := np.rows bgr_image in
  match create_color_map kmeans bgr_image mask color_count with
  | Raised msg => Failure 500 "Failed to process image"%string (Some msg)
  | Returned (color_palette, color_flattened) =>
      match color_palette with
      | [] => Failure 500 "Failed to extract colors from image"%string None
      | _ =>
          let color_regions :=
            segment_by_color color_flattened mask color_palette preserve_style in
          match color_regions with
          | [] => Failure 500 "Failed to segment image into color regions"%string None
          | _ =>
              let svg_content :=
                vectorize_regions potrace find_paths re_sub_fill color_regions
                                  processed_width processed_height preserve_style in
              if negb (truthy svg_content) || (String.length svg_content <? 100)%nat
              then Failure 500 "Vectorization failed or produced empty result"%string None
              else
                let style := (if preserve_style then "authentic" else "clean")%string in
                let final_svg :=
                  postprocess_svg svg_content color_palette original_size style in
                Success200 final_svg color_palette original_size
                           (processed_width, processed_height)
                           (List.length color_palette) (List.length color_regions) style
          end
      end
  end.

End Handler.

(** ** Concrete inputs *)

(** A [h] by [w] mask that is 255 inside the given rectangles
    [(y0, x0, y1, x1)] and 0 elsewhere. *)
Definition in_rect (r : nat * nat * nat * nat) (y x : nat) : bool :=
  let '(y0, x0, y1, x1) := r in
  (y0 <=? y)%nat && (y <=? y1)%nat && (x0 <=? x)%nat && (x <=? x1)%nat.

Definition rects (h w : nat) (rs : list (nat * nat * nat * nat)) : Mask :=
  np.build h w (fun y x => if existsb (fun r => in_rect r y x) rs then 255 else 0).

(** An image painted in layers of rectangles over a background. *)
Definition paint (h w : nat) (layers : list (list (nat * nat * nat * nat) * Pixel))
           (bg : Pixel) : Image :=
  np.build h w (fun y x =>
    match find (fun l => existsb (fun r => in_rect r y x) (fst l)) layers with
    | Some l => snd l
    | None => bg
    end).

Definition white : Pixel := (255, 255, 255).
Definition teal : ColorInfo := ColorInfo_init (100, 150, 200) 1 100.
Definition rust : ColorInfo := ColorInfo_init (180, 60, 40) 1 100.

(** A teal square of exactly 10 by 10 pixels. *)
Definition square100 := [(1, 1, 10, 10)]%nat.
Definition square100_image : Image := paint 14 14 [(square100, bgr_of teal)] white.
Definition square100_mask : Mask := rects 14 14 square100.

(** A teal sheet whose foreground mask is a 12 by 12 square with the single
    pixel [(6, 6)] left out. *)
Definition holed := [(1, 1, 5, 12); (6, 1, 6, 5); (6, 7, 6, 12); (7, 1, 12, 12)]%nat.
Definition holed_image : Image := paint 20 20 [] (bgr_of teal).
Definition holed_mask : Mask := rects 20 20 holed.

(** Two drawings of 121 pixels each: two teal blocks that meet at a corner
    gap, with a teal speck apart from them, and a rust square. *)
Definition steps := [(1, 1, 10, 6); (10, 8, 19, 13); (22, 2, 22, 2)]%nat.
Definition block := [(1, 18, 11, 28)]%nat.
Definition two_image : Image :=
  paint 26 34 [(steps, bgr_of teal); (block, bgr_of rust)] white.
Definition two_mask : Mask := rects 26 34 (steps ++ block).

(** A 2 by 2 block inside a 5 by 5 mask. *)
Definition small_block : Mask := rects 5 5 [(1, 1, 2, 2)]%nat.

(** A k-means fit with the given centres: [k] of them (the last one
    repeated when there are fewer) and every pixel labelled with its nearest
    centre. *)
Definition kmeans_of (centers : list Pixel) (k : nat) (pixels : list Pixel)
  : result KMeansFit :=
  let cs := firstn k (centers ++ repeat (last centers (0, 0, 0)) k) in
  Returned (map (fun c : Pixel =>
                   let '(b, g, r) := c in (inject_Z b, inject_Z g, inject_Z r)) cs,
            map (fun p => argmin (map (sqdist p) cs)) pixels).

(** A tracer that fails on every call, and one that fails (say, by timing
    out) for one colour and writes a document with one path for the others. *)
Definition potrace_fails (bitmap : Mask) (turdsize opttolerance color : string)
  : TraceRun := TraceRaised.

Definition one_path : string :=
  ("<path " ++ fill_attr "black" ++ " d=" ++ dq ++ "M0 0L9 0L9 9z" ++ dq ++ "/>")%string.

Definition potrace_fails_on (bad : string) (bitmap : Mask)
           (turdsize opttolerance color : string) : TraceRun :=
  if String.eqb color bad then TraceRaised
  else OutputFile ("<svg>" ++ one_path ++ "</svg>")%string.

Definition find_one_path (svg_content : string) : list string := [one_path].

(** On the documents above the substitution finds the fill attribute already
    set to the replacement. *)
Definition re_sub_fill_done (repl s : string) : string := s.

Definition add_no_metadata (svg_content : string) (colors : list ColorInfo)
           (original_size : nat * nat) (style : string) : string := svg_content.

(** What a call returned, or [d] if it raised. *)
Definition returned_or {A} (d : A) (r : result A) : A :=
  match r with
  | Returned a => a
  | Raised _ => d
  end.

(** Stages 2 and 3 on the two-drawing image. *)
Definition two_color_map : list ColorInfo * Image :=
  returned_or ([], [])
              (create_color_map (kmeans_of [bgr_of teal; bgr_of rust])
                                two_image two_mask 5).

Definition two_regions : list ColorRegion :=
  segment_by_color (snd two_color_map) two_mask (fst two_color_map) true.

(** The handler on the two-drawing image, with the tracer as a parameter. *)
Definition process_two (potrace : Mask -> string -> string -> string -> TraceRun)
  : Response :=
  process_image (kmeans_of [bgr_of teal; bgr_of rust]) potrace find_one_path
                re_sub_fill_done add_no_metadata (34, 26)%nat two_image two_mask 5 true.

(** A blank sheet: every pixel white, no pixel in the foreground. *)
Definition blank_image : Image := paint 4 6 [] white.
Definition blank_mask : Mask := rects 4 6 [].

(** The [regionCount] of a success response. *)
Definition regionCount_of (response : Response) : option nat :=
  match response with
  | Success200 _ _ _ _ _ regionCount _ => Some regionCount
  | Failure _ _ _ => None
  end.


(** The palette and the colour-mapped image of the two-drawing image, as
    [extract_dominant_colors] returns them. *)
Definition two_extracted : list ColorInfo * Image :=
  returned_or ([], [])
              (extract_dominant_colors (kmeans_of [bgr_of teal; bgr_of rust])
                                       two_image two_mask 5 2).



(** One teal foreground pixel beside one black background pixel. *)
Definition edge_image : Image := [[bgr_of teal; (0, 0, 0)]].
Definition edge_mask : Mask := [[255; 0]].
Definition edge_color_map : list ColorInfo * Image :=
  returned_or ([], []) (create_color_map (kmeans_of [bgr_of teal]) edge_image edge_mask 5).

(** ** Notions used by the statements *)

(** Every set pixel of [a] has a set pixel of [b] at most [lo] rows and
    columns before it and at most [hi] after it. *)
Definition near (lo hi : Z) (a b : Mask) : Prop :=
  forall y x, is_set a y x ->
    exists y' x', y - lo <= y' <= y + hi /\ x - lo <= x' <= x + hi /\ is_set b y' x'.

(** The order [sort_reverse] establishes: an element's key is at least the
    key of every element behind it. *)
Definition desc {A K : Type} (key : A -> K) (leb : K -> K -> bool) (x y : A) : Prop :=
  leb (key y) (key x) = true.

(** How far [clean_boundaries] can move a set pixel in each mode. *)
Definition reach (preserve_style : bool) : Z * Z :=
  if preserve_style then (1, 0) else (4, 4).

(** A decidable form of [is_u8], for concrete masks. *)
Definition is_u8b (m : Mask) : bool :=
  forallb (forallb (fun v => (0 <=? v) && (v <=? 255))) m.

Section Contribution.

Variable potrace : Mask -> string -> string -> string -> TraceRun.
Variable find_paths : string -> list string.
Variable re_sub_fill : string -> string -> string.

(** The paths extracted from the trace of a region. *)
Definition traced_paths (image_width image_height : nat) (preserve_style : bool)
           (region : ColorRegion) : string :=
  extract_paths_from_svg find_paths
    (vectorize_mask_to_svg potrace (region_mask region) (hex (color_info region))
                           image_width image_height preserve_style).

(** A region contributes when its trace yields path content. *)
Definition contributes (image_width image_height : nat) (preserve_style : bool)
           (region : ColorRegion) : bool :=
  truthy (traced_paths image_width image_height preserve_style region).

(** The colour-tagged group of a contributing region. *)
Definition group_of (image_width image_height : nat) (preserve_style : bool)
           (region : ColorRegion) : list string :=
  let color_hex := hex (color_info region) in
  [("<g " ++ fill_attr color_hex ++ " stroke=" ++ dq ++ "none" ++ dq ++ ">")%string;
   re_sub_fill (fill_attr color_hex)
               (str_replace (traced_paths image_width image_height preserve_style region)
                            ("fill=" ++ dq ++ "black" ++ dq)%string (fill_attr color_hex));
   "</g>"%string].

End Contribution.

(** The areas of the final masks of a region list. *)
Definition final_areas (regions : list ColorRegion) : list nat :=
  map (fun r => area (region_mask r)) regions.

(** How far from the foreground a set pixel of a region's mask can lie:
    the 2x2 open and close of [extract_color_regions] move it by up to 2, the
    cleanup by up to [reach]. *)
Definition region_reach (preserve_style : bool) : Z * Z :=
  if preserve_style then (3, 0) else (6, 4).

(** ** Notions used by the further properties *)

(** The array has an entry at [(y, x)]. *)
Definition has_entry {A} (a : np.array2 A) (y x : Z) : Prop :=
  exists v, np.entry a y x = Some v.

(** A colour channel for which [target_bgr - tolerance] or
    [target_bgr + tolerance] leaves the byte range and wraps around. *)
Definition wraps (tolerance v : Z) : Prop := v < tolerance \/ 255 - tolerance < v.

(** What scikit-learn promises of a fit: as many centres as clusters asked
    for, and one label per sample. *)
Definition kmeans_contract (kmeans : nat -> list Pixel -> result KMeansFit) : Prop :=
  forall k pixels centers labels,
    kmeans k pixels = Returned (centers, labels) ->
    List.length centers = k /\ List.length labels = List.length pixels.

(** The sum of a list of integers. *)
Definition Zsum (l : list Z) : Z := fold_right Z.add 0 l.

(** ** Upload validation ([app_color.py] and [app.py]) *)

Definition ALLOWED_EXTENSIONS : list string := ["png"; "jpg"; "jpeg"; "webp"]%string.

(** [c.lower()] on an ASCII letter; other bytes are left as they are. *)
Definition lower_char (c : ascii) : ascii :=
  let n := nat_of_ascii c in
  if (65 <=? n)%nat && (n <=? 90)%nat then ascii_of_nat (n + 32) else c.

Fixpoint str_lower (s : string) : string :=
  match s with
  | EmptyString => EmptyString
  | String c s' => String (lower_char c) (str_lower s')
  end.

(** [s.rsplit('.', 1)[1]] when [s] has a dot: the text after the last dot;
    [None] when it has none. *)
Fixpoint after_last_dot (s : string) : option string :=
  match s with
  | EmptyString => None
  | String c s' =>
      match after_last_dot s' with
      | Some ext => Some ext
      | None => if Ascii.eqb c "."%char then Some s' else None
      end
  end.

Definition allowed_file (filename : string) : bool :=
  match after_last_dot filename with
  | Some ext => existsb (String.eqb (str_lower ext)) ALLOWED_EXTENSIONS
  | None => false
  end.

(** ['.' in s] *)
Fixpoint has_dot (s : string) : bool :=
  match s with
  | EmptyString => false
  | String c s' => Ascii.eqb c "."%char || has_dot s'
  end.

(** Every channel of the triple is a byte. *)
Definition is_byte_triple (t : Z * Z * Z) : Prop :=
  let '(r, g, b) := t in 0 <= r <= 255 /\ 0 <= g <= 255 /\ 0 <= b <= 255.

(** ** Stage 1: preprocessing ([pipeline/preprocessing.py]) *)

(** [cv2.threshold(src, thresh, maxval, cv2.THRESH_BINARY_INV)]: 0 where the
    source is above the threshold, [maxval] elsewhere. *)
Definition cv2_threshold_binary_inv (src : Mask) (thresh maxval : Z) : Mask :=
  map (map (fun v => if thresh <? v then 0 else maxval)) src.

(** [cv2.bitwise_and(image, image, mask=mask)]: the pixel where the mask is
    not zero, and zero in the fresh output elsewhere. *)
Definition cv2_bitwise_and_masked (image : Image) (mask : Mask) : Image :=
  np.zip_with (fun (p : Pixel) (m : Z) => if m =? 0 then (0, 0, 0) else p) image mask.

Section Preprocessing.

(** The lightness channel of [cv2.cvtColor(image, cv2.COLOR_BGR2LAB)]. *)
Variable lab_lightness : Image -> Mask.

(** Whether [rembg] could be imported, and what the [try] block of
    [remove_background_ai] gives: the image and the mask taken from the
    remover's output, or the exception it raised. *)
Variable REMBG_AVAILABLE : bool.
Variable rembg_remove : Image -> result (Image * Mask).

(** The bodies of [normalize_lighting] and [reduce_noise_preserve_strokes],
    which are colour conversions and filters of OpenCV. *)
Variable normalize_lighting : Image -> Image.
Variable reduce_noise_preserve_strokes : Image -> Image.

(** The colour channels of the result and the mask, which is also its alpha
    channel. *)
Definition remove_background_traditional (image : Image) : Image * Mask :=
  let l := lab_lightness image in
  let mask := cv2_threshold_binary_inv l 240 255 in
  let mask := cv2.morphologyEx mask cv2.MORPH_CLOSE 3 1 in
  let mask := cv2.morphologyEx mask cv2.MORPH_OPEN 3 1 in
  let result := cv2_bitwise_and_masked image mask in
  (result, mask).

Definition remove_background_ai (image : Image) : Image * Mask :=
  if REMBG_AVAILABLE then
    match rembg_remove image with
    | Returned r => r
    | Raised _ => remove_background_traditional image
    end
  else remove_background_traditional image.

Definition preprocess_image (image : Image) (use_ai : bool) : Image * Mask :=
  let '(bgr_image, mask) :=
    if use_ai && REMBG_AVAILABLE then remove_background_ai image
    else remove_background_traditional image in
  let normalized := normalize_lighting bgr_image in
  let denoised := reduce_noise_preserve_strokes normalized in
  (denoised, mask).

End Preprocessing.

(** ** The user's exclusion mask ([app.py]) *)

(** The lengths of the rows: the shape of the array. *)
Definition row_lengths {A} (a : np.array2 A) : list nat := map (@List.length A) a.

Definition same_shape {A B} (a : np.array2 A) (b : np.array2 B) : bool :=
  if list_eq_dec Nat.eq_dec (row_lengths a) (row_lengths b) then true else false.

(** [apply_user_mask_to_binary] from the alpha array on, which the function
    takes from the mask image resized to [image_size].  The boolean index
    [result[exclusion_mask > 0]] raises when the two shapes differ; the
    printed statistics are left out. *)
Definition apply_user_mask_to_binary (binary_image : Mask) (alpha : Mask)
  : result Mask :=
  let exclusion_mask := map (map (fun a => if 50 <? a then 255 else 0)) alpha in
  let exclusion_mask := Nat.iter 2 (cv2.dilate 5) exclusion_mask in
  if same_shape binary_image exclusion_mask
  then Returned (np.zip_with (fun b e => if 0 <? e then 0 else b)
                             binary_image exclusion_mask)
  else Raised "IndexError: boolean index did not match indexed array".

(** Every entry of the mask is 0 or 255. *)
Definition is_binary (m : Mask) : Prop :=
  forall y x v, np.entry m y x = Some v -> v = 0 \/ v = 255.

(** A lightness channel for concrete images: the mean of the three channels. *)
Definition mean_lightness (image : Image) : Mask :=
  map (map (fun p : Pixel => let '(b, g, r) := p in (b + g + r) / 3)) image.

Definition rembg_fails (image : Image) : result (Image * Mask) :=
  Raised "model not found".

(** A 3 by 8 binary drawing and an alpha array with one marked pixel. *)
Definition strokes : Mask := [[255; 255; 255; 255; 255; 255; 255; 255];
                              [255; 0; 255; 0; 255; 0; 255; 255];
                              [255; 255; 255; 255; 255; 255; 255; 255]].
Definition marked : Mask := [[0; 0; 0; 0; 0; 0; 0; 0];
                             [200; 0; 0; 0; 0; 0; 0; 0];
                             [0; 0; 0; 0; 0; 0; 0; 0]].

(** ** Stage 5: the metadata comment ([pipeline/postprocessing.py]) *)

Module postprocessing.

(** [[^>]*>] matched at the start of [s]: the text through the first [>]. *)
Fixpoint through_gt (s : string) : option string :=
  match s with
  | EmptyString => None
  | String c s' =>
      if Ascii.eqb c ">"%char then Some (String c EmptyString)
      else option_map (String c) (through_gt s')
  end.

(** [re.search(r'(<svg[^>]*>)', s)]: group 1 of the leftmost match. *)
Fixpoint re_search_svg_tag (s : string) : option string :=
  match s with
  | EmptyString => None
  | String _ s' =>
      if prefix "<svg" s
      then match through_gt s with
           | Some svg_tag => Some svg_tag
           | None => re_search_svg_tag s'
           end
      else re_search_svg_tag s'
  end.

(** The f-string of [add_metadata]; [processing_time] is the elapsed time as
    [:.2f] prints it. *)
Definition metadata_comment (colors : list ColorInfo) (original_size : nat * nat)
           (style processing_time : string) : string :=
  let color_list := String.concat ", " (map hex colors) in
  ("<!--" ++ nl
     ++ "    Metadata:" ++ nl
     ++ "    - Colors: " ++ color_list ++ nl
     ++ "    - Color Count: " ++ str_of_nat (List.length colors) ++ nl
     ++ "    - Original Size: " ++ str_of_nat (fst original_size) ++ "x"
     ++ str_of_nat (snd original_size) ++ nl
     ++ "    - Style: " ++ style ++ nl
     ++ "    - Processing Time: " ++ processing_time ++ "s" ++ nl
     ++ "-->")%string.

Definition add_metadata (processing_time : string) (svg_content : string)
           (colors : list ColorInfo) (original_size : nat * nat) (style : string)
  : string :=
  match re_search_svg_tag svg_content with
  | None => svg_content
  | Some svg_tag =>
      let metadata := metadata_comment colors original_size style processing_time in
      str_replace svg_content svg_tag (svg_tag ++ nl ++ metadata)
  end.

End postprocessing.

(** No character of the string is [>]. *)
Fixpoint no_gt (s : string) : bool :=
  match s with
  | EmptyString => true
  | String c s' => negb (Ascii.eqb c ">"%char) && no_gt s'
  end.

(** A tracer that writes a document with one path. *)
Definition potrace_one_path (mask : Mask) (color_hex turdsize opttolerance : string)
  : TraceRun :=
  OutputFile one_path.

(** ** The monochrome pipeline ([app.py]) *)

(** [str(n)] for an [int]. *)
Definition str_of_int (z : Z) : string :=
  if z <? 0 then ("-" ++ str_of_nat (Z.to_nat (- z)))%string
  else str_of_nat (Z.to_nat z).

Module app.

(** How the [try] block of [vectorize_with_potrace] goes, up to the reading
    of the output file: [cv2.imwrite] returns [False], the potrace process
    times out, exits with an error or is not found, something else raises,
    no output file is there, or the text of the output file. *)
Inductive TraceRun :=
| WriteFailed
| TimeoutExpired
| CalledProcessError (stderr stdout : string)
| FileNotFoundError
| OtherException (msg : string)
| NoOutputFile
| OutputFile (svg : string).

(** The body of a response, with its status: 200, or 500 with [str(e)]; the
    echoed size and options other than [maskApplied] are left out. *)
Inductive Response :=
| Success200 (svg : string) (maskApplied : bool)
| Failure500 (message : string).

Section Pipeline.

(** The potrace process on the inverted bitmap, with its [--turdsize] and
    [--color] arguments. *)
Variable potrace : Mask -> string -> string -> TraceRun.

(** [cv2.medianBlur(_, 3)]. *)
Variable medianBlur : Mask -> Mask.

(** [cv2.connectedComponentsWithStats(_, connectivity=8)]: the number of
    labels, the label of every pixel, and the area of every label. *)
Variable connectedComponentsWithStats : Mask -> nat * np.array2 nat * list Z.

(** [output[labels == i] = 255] *)
Definition keep_label (labels : np.array2 nat) (i : nat) (output : Mask) : Mask :=
  np.zip_with (fun o l => if (l =? i)%nat then 255 else o) output labels.

Definition clean_noise (binary_image : Mask) (min_artifact_size : Z) : Mask :=
  let cleaned := medianBlur binary_image in
  let '(num_labels, labels, stats) := connectedComponentsWithStats cleaned in
  let output := map (map (fun _ : Z => 0)) cleaned in
  let output :=
    fold_left (fun output i =>
                 let area := nth i stats 0 in
                 if min_artifact_size <=? area then keep_label labels i output
                 else output)
              (seq 1 (num_labels - 1)) output in
  let output := cv2.morphologyEx output cv2.MORPH_CLOSE 3 1 in
  cv2.morphologyEx output cv2.MORPH_OPEN 3 1.

Definition vectorize_with_potrace (binary_image : Mask) (invert_colors : bool)
           (turdsize : Z) : result string :=
  let binary_image := map (map (fun v => 255 - v)) binary_image in
  let color := (if invert_colors then "#FFFFFF" else "#000000")%string in
  match potrace binary_image (str_of_int turdsize) color with
  | WriteFailed => Raised "Failed to write BMP file"
  | TimeoutExpired => Raised "Potrace timeout - image may be too complex"
  | CalledProcessError stderr stdout =>
      let error_msg :=
        if truthy stderr then stderr
        else if truthy stdout then stdout else "Unknown potrace error"%string in
      Raised ("Potrace failed: " ++ error_msg)
  | FileNotFoundError =>
      Raised "Potrace not found. Please install potrace: brew install potrace"
  | OtherException msg => Raised msg
  | NoOutputFile => Raised "Potrace did not create output file"
  | OutputFile svg =>
      if negb (truthy svg) || (String.length svg <? 50)%nat
      then Raised ("Generated SVG is too short or empty: "
                     ++ str_of_nat (String.length svg) ++ " bytes")
      else
        let svg :=
          if invert_colors then
            let svg := str_replace svg ("fill=" ++ dq ++ "#000000" ++ dq)
                                   ("fill=" ++ dq ++ "#FFFFFF" ++ dq) in
            let svg := str_replace svg "fill='#000000'" "fill='#FFFFFF'" in
            let svg := str_replace svg ("fill=" ++ dq ++ "black" ++ dq)
                                   ("fill=" ++ dq ++ "#FFFFFF" ++ dq) in
            let svg := str_replace svg "fill='black'" "fill='#FFFFFF'" in
            let svg := str_replace svg "fill:black" "fill:#FFFFFF" in
            str_replace svg "fill:#000000" "fill:#FFFFFF"
          else svg in
        Returned svg
  end.

(** [process_image] from the binarized image on: [bw_image] is what
    [convert_to_bw] returned, [alpha] the alpha array of the resized mask
    upload if there is one. *)
Definition process_image (bw_image : Mask) (alpha : option Mask)
           (invert_colors : bool) (min_artifact_size turdsize : Z) : Response :=
  let has_mask := match alpha with Some _ => true | None => false end in
  let masked :=
    match alpha with
    | Some a => apply_user_mask_to_binary bw_image a
    | None => Returned bw_image
    end in
  match masked with
  | Raised msg => Failure500 msg
  | Returned bw_image =>
      let cleaned_image := clean_noise bw_image min_artifact_size in
      match vectorize_with_potrace cleaned_image invert_colors turdsize with
      | Raised msg => Failure500 msg
      | Returned svg => Success200 svg has_mask
      end
  end.

End Pipeline.

End app.

(** A labelling for concrete masks: every set pixel in one component of
    label 1, with the number of set pixels for its area. *)
Definition one_component (m : Mask) : nat * np.array2 nat * list Z :=
  (2%nat,
   map (map (fun v => if 128 <? v then 1%nat else 0%nat)) m,
   [Z.of_nat (np.count_gt (-1) m) - Z.of_nat (np.count_gt 128 m);
    Z.of_nat (np.count_gt 128 m)]).



(** ** Stage 4 with its temporary files ([pipeline/vectorization.py]) *)

Module fs.

Section Files.

(** [tempfile.NamedTemporaryFile(suffix=..., delete=False)] among the files
    that exist: the name of the file it creates, or the exception. *)
Variable NamedTemporaryFile : string -> list string -> result string.

(** [cv2.imwrite(path, bitmap)]: its return value, or the exception. *)
Variable imwrite : string -> Mask -> result bool.

(** The rest of the [try] block, as in [vectorize_mask_to_svg] above: the
    potrace process on the bitmap, the test for the output file, its
    reading. *)
Variable potrace : Mask -> string -> string -> string -> TraceRun.

(** [os.unlink(path)] on a file that exists: done, or the exception. *)
Variable unlink : string -> result unit.

(** [os.path.exists(path)] *)
Definition exists_ (files : list string) (path : string) : bool :=
  existsb (String.eqb path) files.

(** The [finally] block: the loop over the two path variables. *)
Definition cleanup (files : list string) (paths : list (option string)) : list string :=
  fold_left (fun files path =>
               match path with
               | Some p =>
                   if truthy p && exists_ files p
                   then match unlink p with
                        | Returned _ => remove string_dec p files
                        | Raised _ => files
                        end
                   else files
               | None => files
               end)
            paths files.

(** [vectorize_mask_to_svg] with the files that exist before and after the
    call. *)
Definition vectorize_mask_to_svg (files : list string) (mask : Mask) (color_hex : string)
           (width height : nat) (preserve_style : bool) : string * list string :=
  let tmp_input_path : option string := None in
  let tmp_output_path : option string := None in
  let mask_inverted := map (map (fun v => 255 - v)) mask in
  match NamedTemporaryFile ".bmp" files with
  | Raised _ => (EmptyString, cleanup files [tmp_input_path; tmp_output_path])
  | Returned tmp_input =>
      let files := tmp_input :: files in
      match imwrite tmp_input mask_inverted with
      | Raised _ => (EmptyString, cleanup files [tmp_input_path; tmp_output_path])
      | Returned _ =>
          let tmp_input_path := Some tmp_input in
          match NamedTemporaryFile ".svg" files with
          | Raised _ => (EmptyString, cleanup files [tmp_input_path; tmp_output_path])
          | Returned tmp_output =>
              let files := tmp_output :: files in
              let tmp_output_path := Some tmp_output in
              let opttolerance := (if preserve_style then "0.2" else "0.4")%string in
              let turdsize := (if preserve_style then "3" else "5")%string in
              match potrace mask_inverted turdsize opttolerance color_hex with
              | TraceRaised =>
                  (EmptyString, cleanup files [tmp_input_path; tmp_output_path])
              | NoOutputFile =>
                  (EmptyString,
                   cleanup (remove string_dec tmp_output files)
                           [tmp_input_path; tmp_output_path])
              | OutputFile svg_content =>
                  (svg_content, cleanup files [tmp_input_path; tmp_output_path])
              end
          end
      end
  end.

End Files.

End fs.

(** Temporary files for concrete runs: a name made of the number of files
    that exist, and an [imwrite] that raises. *)
Definition tmp_name (suffix : string) (files : list string) : result string :=
  Returned ("/tmp/tmp" ++ str_of_nat (List.length files) ++ suffix)%string.

Definition imwrite_done (path : string) (bitmap : Mask) : result bool := Returned true.

Definition imwrite_raises (path : string) (bitmap : Mask) : result bool :=
  Raised "cv2.error".

Definition unlink_done (path : string) : result unit := Returned tt.

(** * Properties *)

(** ** Arrays *)

Lemma nth_error_combine {A B} (a : list A) (b : list B) (n : nat) :
  nth_error (combine a b) n =
  match nth_error a n, nth_error b n with
  | Some u, Some v => Some (u, v)
  | _, _ => None
  end.
Proof.
  revert b n; induction a as [|u a IH]; intros [|v b] [|n]; simpl; auto.
  - destruct (nth_error a n); reflexivity.
Qed.

Lemma entry_outside {A} (a : np.array2 A) (y x : Z) :
  y < 0 \/ x < 0 -> np.entry a y x = None.
Proof.
  intros H; unfold np.entry.
  destruct (0 <=? y) eqn:Hy; destruct (0 <=? x) eqn:Hx; simpl; auto; lia.
Qed.

Lemma entry_map {A B} (f : A -> B) (a : np.array2 A) (y x : Z) :
  np.entry (map (map f) a) y x = option_map f (np.entry a y x).
Proof.
  unfold np.entry.
  destruct ((0 <=? y) && (0 <=? x)); [|reflexivity].
  rewrite nth_error_map.
  destruct (nth_error a (Z.to_nat y)) as [row|]; simpl; [|reflexivity].
  apply nth_error_map.
Qed.

Lemma entry_imap {A B} (f : Z -> Z -> B) (a : np.array2 A) (y x : Z) :
  np.entry (np.imap f a) y x =
  match np.entry a y x with
  | Some _ => Some (f y x)
  | None => None
  end.
Proof.
  unfold np.entry, np.imap.
  destruct (0 <=? y) eqn:Hy; destruct (0 <=? x) eqn:Hx; simpl; try reflexivity.
  rewrite nth_error_map, nth_error_combine, nth_error_seq.
  destruct (nth_error a (Z.to_nat y)) as [row|] eqn:Hrow.
  - assert (Hlt : (Z.to_nat y < List.length a)%nat)
      by (apply nth_error_Some; congruence).
    apply Nat.ltb_lt in Hlt; rewrite Hlt; simpl.
    rewrite nth_error_map, nth_error_seq.
    destruct (nth_error row (Z.to_nat x)) as [v|] eqn:Hv.
    + assert (Hlt' : (Z.to_nat x < List.length row)%nat)
        by (apply nth_error_Some; congruence).
      apply Nat.ltb_lt in Hlt'; rewrite Hlt'; simpl.
      rewrite !Z2Nat.id by lia. reflexivity.
    + apply nth_error_None in Hv.
      apply Nat.ltb_ge in Hv; rewrite Hv; reflexivity.
  - destruct (Z.to_nat y <? List.length a)%nat; reflexivity.
Qed.

Lemma entry_zip_with {A B C} (f : A -> B -> C) (a : np.array2 A) (b : np.array2 B)
      (y x : Z) :
  np.entry (np.zip_with f a b) y x =
  match np.entry a y x, np.entry b y x with
  | Some u, Some v => Some (f u v)
  | _, _ => None
  end.
Proof.
  unfold np.entry, np.zip_with.
  destruct ((0 <=? y) && (0 <=? x)); [|reflexivity].
  rewrite nth_error_map, nth_error_combine.
  destruct (nth_error a (Z.to_nat y)) as [ra|]; [|reflexivity].
  destruct (nth_error b (Z.to_nat y)) as [rb|]; simpl.
  - rewrite nth_error_map, nth_error_combine.
    destruct (nth_error ra (Z.to_nat x)); [|reflexivity].
    destruct (nth_error rb (Z.to_nat x)); reflexivity.
  - destruct (nth_error ra (Z.to_nat x)); reflexivity.
Qed.

Lemma is_set_entry (m : Mask) (y x : Z) :
  is_set m y x <-> exists v, np.entry m y x = Some v /\ 128 < v.
Proof.
  unfold is_set, np.getZ. destruct (np.entry m y x) as [v|].
  - split; [intros H; exists v; auto | intros (v' & [= <-] & H); exact H].
  - split; [lia | intros (v' & [=] & _)].
Qed.

Lemma is_u8_entry (m : Mask) (y x v : Z) :
  is_u8 m -> np.entry m y x = Some v -> 0 <= v <= 255.
Proof.
  unfold is_u8, np.entry. intros Hm H.
  destruct ((0 <=? y) && (0 <=? x)); [|discriminate].
  destruct (nth_error m (Z.to_nat y)) as [row|] eqn:Hrow; [|discriminate].
  apply nth_error_In in Hrow, H.
  rewrite Forall_forall in Hm. specialize (Hm _ Hrow).
  rewrite Forall_forall in Hm. exact (Hm _ H).
Qed.

(** ** Erosion, dilation and the cleanups built from them *)

Lemma fold_min_le {A} (g : A -> Z) (l : list A) (o : A) :
  In o l -> fold_right (fun o acc => Z.min (g o) acc) 255 l <= g o.
Proof.
  induction l as [|a l IH]; simpl; [tauto|].
  intros [->|H]; [lia|]. specialize (IH H). lia.
Qed.

Lemma fold_max_gt {A} (g : A -> Z) (l : list A) (t : Z) :
  0 <= t -> t < fold_right (fun o acc => Z.max (g o) acc) 0 l ->
  exists o, In o l /\ t < g o.
Proof.
  intros Ht. induction l as [|a l IH]; simpl; [lia|].
  intros H. destruct (Z_lt_dec t (g a)) as [Ha|Ha].
  - exists a; auto.
  - destruct IH as (o & Ho & Hg); [lia|]. exists o; auto.
Qed.

Lemma erode_set (k : nat) (m : Mask) (y x : Z) :
  In (0, 0) (cv2.window k) -> is_set (cv2.erode k m) y x -> is_set m y x.
Proof.
  intros Hk H. apply is_set_entry in H as (v & Hv & Hlt).
  unfold cv2.erode in Hv. rewrite entry_imap in Hv.
  destruct (np.entry m y x) as [u|] eqn:Hu; [|discriminate].
  injection Hv as <-.
  apply is_set_entry. exists u; split; [exact Hu|].
  pose proof (fold_min_le (fun o => np.getZ 255 m (y + fst o) (x + snd o)) _ _ Hk) as Hle.
  simpl in Hle. rewrite !Z.add_0_r in Hle.
  unfold np.getZ in Hle at 2. rewrite Hu in Hle. lia.
Qed.

Lemma dilate_set (k : nat) (m : Mask) (y x : Z) :
  is_set (cv2.dilate k m) y x ->
  exists o, In o (cv2.window k) /\ is_set m (y + fst o) (x + snd o).
Proof.
  intros H. apply is_set_entry in H as (v & Hv & Hlt).
  unfold cv2.dilate in Hv. rewrite entry_imap in Hv.
  destruct (np.entry m y x); [|discriminate].
  injection Hv as <-.
  apply fold_max_gt in Hlt; [exact Hlt | lia].
Qed.

Lemma window2_origin : In (0, 0) (cv2.window 2).
Proof. cbn. auto. Qed.

Lemma window3_origin : In (0, 0) (cv2.window 3).
Proof. cbn. intuition. Qed.

Lemma window2_bounds (o : Z * Z) :
  In o (cv2.window 2) -> -1 <= fst o <= 0 /\ -1 <= snd o <= 0.
Proof. cbn. intuition; subst; simpl; lia. Qed.

Lemma window3_bounds (o : Z * Z) :
  In o (cv2.window 3) -> -1 <= fst o <= 1 /\ -1 <= snd o <= 1.
Proof. cbn. intuition; subst; simpl; lia. Qed.

Lemma near_trans (l1 h1 l2 h2 : Z) (a b c : Mask) :
  near l1 h1 a b -> near l2 h2 b c -> near (l1 + l2) (h1 + h2) a c.
Proof.
  intros Hab Hbc y x H.
  destruct (Hab y x H) as (y1 & x1 & Hy1 & Hx1 & H1).
  destruct (Hbc y1 x1 H1) as (y2 & x2 & Hy2 & Hx2 & H2).
  exists y2, x2. repeat split; try lia. exact H2.
Qed.

Lemma near_erode2 (m : Mask) : near 0 0 (cv2.erode 2 m) m.
Proof.
  intros y x H. exists y, x. repeat split; try lia.
  exact (erode_set 2 m y x window2_origin H).
Qed.

Lemma near_erode3 (m : Mask) : near 0 0 (cv2.erode 3 m) m.
Proof.
  intros y x H. exists y, x. repeat split; try lia.
  exact (erode_set 3 m y x window3_origin H).
Qed.

Lemma near_dilate2 (m : Mask) : near 1 0 (cv2.dilate 2 m) m.
Proof.
  intros y x H. apply dilate_set in H as (o & Ho & H).
  apply window2_bounds in Ho.
  exists (y + fst o), (x + snd o). repeat split; try lia. exact H.
Qed.

Lemma near_dilate3 (m : Mask) : near 1 1 (cv2.dilate 3 m) m.
Proof.
  intros y x H. apply dilate_set in H as (o & Ho & H).
  apply window3_bounds in Ho.
  exists (y + fst o), (x + snd o). repeat split; try lia. exact H.
Qed.

(** A 2x2 opening can move a set pixel by one row and one column, towards
    the lower right, and no further. *)
Lemma near_open2 (m : Mask) : near 1 0 (cv2.morphologyEx m cv2.MORPH_OPEN 2 1) m.
Proof.
  change (near (1 + 0) (0 + 0) (cv2.dilate 2 (cv2.erode 2 m)) m).
  eapply near_trans; [apply near_dilate2 | apply near_erode2].
Qed.

Lemma near_close2 (m : Mask) : near 1 0 (cv2.morphologyEx m cv2.MORPH_CLOSE 2 1) m.
Proof.
  change (near (0 + 1) (0 + 0) (cv2.erode 2 (cv2.dilate 2 m)) m).
  eapply near_trans; [apply near_erode2 | apply near_dilate2].
Qed.

Lemma near_open3x2 (m : Mask) : near 2 2 (cv2.morphologyEx m cv2.MORPH_OPEN 3 2) m.
Proof.
  change (near (1 + (1 + (0 + 0))) (1 + (1 + (0 + 0)))
               (cv2.dilate 3 (cv2.dilate 3 (cv2.erode 3 (cv2.erode 3 m)))) m).
  repeat (eapply near_trans;
          [first [apply near_dilate3 | apply near_erode3]|]).
  apply near_erode3.
Qed.

Lemma near_close3x2 (m : Mask) : near 2 2 (cv2.morphologyEx m cv2.MORPH_CLOSE 3 2) m.
Proof.
  change (near (0 + (0 + (1 + 1))) (0 + (0 + (1 + 1)))
               (cv2.erode 3 (cv2.erode 3 (cv2.dilate 3 (cv2.dilate 3 m)))) m).
  repeat (eapply near_trans;
          [first [apply near_dilate3 | apply near_erode3]|]).
  apply near_dilate3.
Qed.

Lemma near_clean_boundaries (m : Mask) (preserve_style : bool) :
  near (fst (reach preserve_style)) (snd (reach preserve_style))
       (clean_boundaries m preserve_style) m.
Proof.
  destruct preserve_style; unfold clean_boundaries; simpl.
  - apply near_open2.
  - change (near (2 + 2) (2 + 2)
                 (cv2.morphologyEx (cv2.morphologyEx m cv2.MORPH_OPEN 3 2)
                                   cv2.MORPH_CLOSE 3 2) m).
    eapply near_trans; [apply near_close3x2 | apply near_open3x2].
Qed.

Lemma bitwise_and_inRange_set (image : Image) (lower upper : Pixel) (mask : Mask)
      (y x : Z) :
  is_u8 mask ->
  is_set (cv2.bitwise_and (cv2.inRange image lower upper) mask) y x ->
  is_set mask y x.
Proof.
  intros Hu8 H. apply is_set_entry in H as (v & Hv & Hlt).
  unfold cv2.bitwise_and, cv2.inRange in Hv.
  rewrite entry_zip_with, entry_map in Hv.
  destruct (np.entry image y x) as [p|]; [|discriminate]. simpl in Hv.
  destruct (np.entry mask y x) as [u|] eqn:Hu; [|discriminate].
  injection Hv as <-.
  apply is_set_entry. exists u; split; [exact Hu|].
  pose proof (is_u8_entry _ _ _ _ Hu8 Hu) as Hb.
  destruct p as ((b, g), r), lower as ((lb, lg), lr), upper as ((ub, ug), ur).
  destruct ((lb <=? b) && (b <=? ub) && (lg <=? g) && (g <=? ug)
            && (lr <=? r) && (r <=? ur)).
  - rewrite Z.land_comm in Hlt. change 255 with (Z.ones 8) in Hlt.
    rewrite Z.land_ones in Hlt by lia.
    rewrite Z.mod_small in Hlt by (change (2 ^ 8) with 256; lia). exact Hlt.
  - simpl in Hlt. lia.
Qed.

Lemma near_color_mask_of (image : Image) (mask : Mask) (ci : ColorInfo) (tol : Z) :
  is_u8 mask -> near 2 0 (color_mask_of image mask ci tol) mask.
Proof.
  intros Hu8. unfold color_mask_of.
  destruct (rgb ci) as ((r, g), b).
  cbv zeta. simpl fst; simpl snd.
  match goal with
  | |- near _ _ (cv2.morphologyEx (cv2.morphologyEx ?X _ _ _) _ _ _) _ =>
      change (near (1 + (1 + 0)) (0 + (0 + 0))
                   (cv2.morphologyEx (cv2.morphologyEx X cv2.MORPH_OPEN 2 1)
                                     cv2.MORPH_CLOSE 2 1) mask);
      eapply near_trans; [apply near_close2|];
      eapply near_trans; [apply near_open2|]
  end.
  intros y x H. exists y, x. repeat split; try lia.
  eapply bitwise_and_inRange_set; eauto.
Qed.

(** ** [list.sort(key=..., reverse=True)] *)

Lemma StronglySorted_weaken {A} (R S : A -> A -> Prop) (l : list A) :
  (forall x y, R x y -> S x y) -> StronglySorted R l -> StronglySorted S l.
Proof.
  intros HRS. induction 1 as [|x l _ IH Hx]; constructor; [exact IH|].
  rewrite Forall_forall in *. intros y Hy. apply HRS, Hx, Hy.
Qed.

Section PySortFacts.
Context {A K : Type} (key : A -> K) (leb : K -> K -> bool).

Lemma In_insert_desc (x y : A) (l : list A) :
  In y (insert_desc key leb x l) <-> y = x \/ In y l.
Proof.
  induction l as [|z l IH]; simpl.
  - intuition.
  - destruct (leb (key z) (key x)); simpl; [intuition|].
    rewrite IH. intuition.
Qed.

Lemma In_sort_reverse (y : A) (l : list A) :
  In y (sort_reverse key leb l) <-> In y l.
Proof.
  induction l as [|x l IH]; simpl; [tauto|].
  rewrite In_insert_desc, IH. intuition.
Qed.

Lemma length_insert_desc (x : A) (l : list A) :
  List.length (insert_desc key leb x l) = S (List.length l).
Proof.
  induction l as [|z l IH]; simpl; [reflexivity|].
  destruct (leb (key z) (key x)); simpl; congruence.
Qed.

Lemma length_sort_reverse (l : list A) :
  List.length (sort_reverse key leb l) = List.length l.
Proof.
  induction l as [|x l IH]; simpl; [reflexivity|].
  rewrite length_insert_desc, IH. reflexivity.
Qed.

Lemma Permutation_insert_desc (x : A) (l : list A) :
  Permutation (x :: l) (insert_desc key leb x l).
Proof.
  induction l as [|z l IH]; simpl; [reflexivity|].
  destruct (leb (key z) (key x)); [reflexivity|].
  rewrite perm_swap. constructor. exact IH.
Qed.

Lemma Permutation_sort_reverse (l : list A) :
  Permutation l (sort_reverse key leb l).
Proof.
  induction l as [|x l IH]; simpl; [constructor|].
  rewrite <- Permutation_insert_desc. constructor. exact IH.
Qed.

Hypothesis leb_total : forall a b, leb a b = true \/ leb b a = true.
Hypothesis leb_trans : forall a b c, leb a b = true -> leb b c = true -> leb a c = true.

Lemma sorted_insert_desc (x : A) (l : list A) :
  StronglySorted (desc key leb) l -> StronglySorted (desc key leb) (insert_desc key leb x l).
Proof.
  induction 1 as [|z l Hs IH Hz]; simpl.
  - repeat constructor.
  - destruct (leb (key z) (key x)) eqn:Hzx.
    + constructor; [constructor; assumption|].
      constructor; [exact Hzx|].
      rewrite Forall_forall in *. intros w Hw.
      unfold desc in *. eapply leb_trans; [apply Hz, Hw | exact Hzx].
    + constructor; [exact IH|].
      rewrite Forall_forall in *. intros w Hw.
      apply In_insert_desc in Hw as [->|Hw]; [|apply Hz, Hw].
      unfold desc. destruct (leb_total (key x) (key z)); congruence.
Qed.

Lemma sorted_sort_reverse (l : list A) :
  StronglySorted (desc key leb) (sort_reverse key leb l).
Proof.
  induction l as [|x l IH]; simpl; [constructor|].
  apply sorted_insert_desc, IH.
Qed.

End PySortFacts.

Section PySortStable.
Context {A K : Type} (key : A -> K) (leb : K -> K -> bool) (P : A -> bool).

(** [P] selects elements of one key. *)
Hypothesis P_one_key : forall x y, P x = true -> P y = true -> leb (key y) (key x) = true.



End PySortStable.

(** ** Stage 3: the regions of [segment_by_color] *)

Lemma le_total_bool (a b : nat) : (a <=? b)%nat = true \/ (b <=? a)%nat = true.
Proof. rewrite !Nat.leb_le. lia. Qed.

Lemma le_trans_bool (a b c : nat) :
  (a <=? b)%nat = true -> (b <=? c)%nat = true -> (a <=? c)%nat = true.
Proof. rewrite !Nat.leb_le. lia. Qed.

(** A region is extracted exactly for the palette colours whose mask has
    more than 100 set pixels. *)
Lemma In_extract_color_regions (image : Image) (mask : Mask)
      (palette : list ColorInfo) (tol : Z) (r : ColorRegion) :
  In r (extract_color_regions image mask palette tol) <->
  exists ci, In ci palette
             /\ (100 < area (color_mask_of image mask ci tol))%nat
             /\ r = ColorRegion_init ci (color_mask_of image mask ci tol).
Proof.
  unfold extract_color_regions. rewrite In_sort_reverse, in_flat_map.
  split.
  - intros (ci & Hci & Hr).
    destruct (100 <? area (color_mask_of image mask ci tol))%nat eqn:Ha;
      [|contradiction].
    destruct Hr as [<-|[]]. apply Nat.ltb_lt in Ha. eauto.
  - intros (ci & Hci & Ha & ->). exists ci; split; [exact Hci|].
    apply Nat.ltb_lt in Ha. rewrite Ha. left; reflexivity.
Qed.

Lemma In_segment_by_color (image : Image) (mask : Mask) (palette : list ColorInfo)
      (preserve_style : bool) (r : ColorRegion) :
  In r (segment_by_color image mask palette preserve_style) ->
  exists ci, In ci palette
             /\ region_mask r =
                clean_boundaries (color_mask_of image mask ci 10) preserve_style.
Proof.
  unfold segment_by_color. rewrite in_map_iff.
  intros (r0 & <- & Hr0).
  apply In_extract_color_regions in Hr0 as (ci & Hci & _ & ->).
  exists ci; split; [exact Hci | reflexivity].
Qed.

Lemma is_u8b_correct (m : Mask) : is_u8b m = true -> is_u8 m.
Proof.
  unfold is_u8b, is_u8. rewrite forallb_forall, Forall_forall.
  intros H row Hrow. specialize (H row Hrow).
  rewrite forallb_forall in H. rewrite Forall_forall.
  intros v Hv. specialize (H v Hv). lia.
Qed.

(** C2, as the code has it: a region's mask need not stay inside the
    foreground mask, because the 2x2 closing of [extract_color_regions] and
    the cleanup of [clean_boundaries] run after the intersection with the
    foreground; but every set pixel of a region's mask has a set foreground
    pixel close to it: at most 3 rows and columns before it when the style is
    preserved, and at most 6 before and 4 after it otherwise. *)
Theorem C2_region_mask_near_foreground (image : Image) (mask : Mask)
        (palette : list ColorInfo) (preserve_style : bool) (r : ColorRegion) :
  is_u8 mask ->
  In r (segment_by_color image mask palette preserve_style) ->
  near (fst (region_reach preserve_style)) (snd (region_reach preserve_style))
       (region_mask r) mask.
Proof.
  intros Hu8 Hr.
  apply In_segment_by_color in Hr as (ci & _ & ->).
  replace (fst (region_reach preserve_style)) with (fst (reach preserve_style) + 2)
    by (destruct preserve_style; reflexivity).
  replace (snd (region_reach preserve_style)) with (snd (reach preserve_style) + 0)
    by (destruct preserve_style; reflexivity).
  eapply near_trans; [apply near_clean_boundaries | apply near_color_mask_of, Hu8].
Qed.

(** The theorem at the holed sheet, whose one region lies within 3 rows and
    columns of the foreground. *)
Lemma C2_region_mask_near_foreground_witness :
  near 3 0
       (region_mask (hd (ColorRegion_init teal [])
                        (segment_by_color holed_image holed_mask [teal] true)))
       holed_mask.
Proof.
  apply (C2_region_mask_near_foreground holed_image holed_mask [teal] true).
  - apply is_u8b_correct. vm_compute. reflexivity.
  - vm_compute. left. reflexivity.
Defined.

(** C2, as stated, fails: the pixel [(6, 6)] is clear in the foreground
    mask and set in the mask of the region extracted from it. *)
Lemma C2_counterexample :
  ~ (forall r y x,
        In r (segment_by_color holed_image holed_mask [teal] true) ->
        is_set (region_mask r) y x -> is_set holed_mask y x).
Proof.
  intros H.
  specialize (H (hd (ColorRegion_init teal [])
                    (segment_by_color holed_image holed_mask [teal] true)) 6 6).
  assert (Hclear : ~ is_set holed_mask 6 6) by (vm_compute; discriminate).
  apply Hclear, H.
  - vm_compute. left. reflexivity.
  - vm_compute. reflexivity.
Qed.

(** C10 at a concrete mask: the style-preserving cleanup of a 2 by 2 block
    returns the block one row lower and one column further right, so the pixel
    [(3, 3)] is set in the result and clear in the input. *)
Theorem C10_style_cleanup_adds_pixels :
  clean_boundaries small_block true = rects 5 5 [(2, 2, 3, 3)]%nat
  /\ is_set (clean_boundaries small_block true) 3 3
  /\ ~ is_set small_block 3 3.
Proof.
  split; [vm_compute; reflexivity|].
  split; [vm_compute; reflexivity | vm_compute; discriminate].
Qed.

(** C9 at a concrete image: a colour whose cleaned mask has exactly 100 set
    pixels yields no region. *)
Theorem C9_area_100_is_discarded :
  area (color_mask_of square100_image square100_mask teal 10) = 100%nat
  /\ extract_color_regions square100_image square100_mask [teal] 10 = []
  /\ segment_by_color square100_image square100_mask [teal] true = [].
Proof.
  split; [vm_compute; reflexivity|].
  split; vm_compute; reflexivity.
Qed.

(** ** Stage 4: the parts of the document *)

Lemma fold_left_append {A B} (f : B -> list A) (l : list B) (init : list A) :
  fold_left (fun parts r => parts ++ f r) l init = init ++ flat_map f l.
Proof.
  revert init. induction l as [|r l IH]; intros init; simpl.
  - rewrite app_nil_r. reflexivity.
  - rewrite IH, app_assoc. reflexivity.
Qed.

Lemma flat_map_if {A B} (c : B -> bool) (g : B -> list A) (l : list B) :
  flat_map (fun r => if c r then g r else []) l = flat_map g (filter c l).
Proof.
  induction l as [|r l IH]; simpl; [reflexivity|].
  destruct (c r); simpl; rewrite IH; reflexivity.
Qed.

Section VectorizationFacts.

Variable potrace : Mask -> string -> string -> string -> TraceRun.
Variable find_paths : string -> list string.
Variable re_sub_fill : string -> string -> string.

Lemma region_parts_contributes (r : ColorRegion) (w h : nat) (style : bool) :
  region_parts potrace find_paths re_sub_fill r w h style =
  if contributes potrace find_paths w h style r
  then group_of potrace find_paths re_sub_fill w h style r
  else [].
Proof.
  unfold region_parts, contributes, group_of, traced_paths.
  destruct (vectorize_mask_to_svg potrace (region_mask r) (hex (color_info r)) w h style)
    as [|c svg]; reflexivity.
Qed.

Lemma svg_parts_groups (regions : list ColorRegion) (w h : nat) (style : bool) :
  svg_parts potrace find_paths re_sub_fill regions w h style =
  [svg_open_tag w h; ("<g id=" ++ dq ++ "drawing" ++ dq ++ ">")%string]
    ++ flat_map (group_of potrace find_paths re_sub_fill w h style)
                (filter (contributes potrace find_paths w h style) regions)
    ++ ["</g>"; "</svg>"]%string.
Proof.
  unfold svg_parts. rewrite fold_left_append.
  rewrite <- flat_map_if, <- !app_assoc.
  rewrite (flat_map_ext _ _ (fun r => region_parts_contributes r w h style)).
  reflexivity.
Qed.

End VectorizationFacts.

(** C3, as the code has it: [extract_color_regions] orders the regions
    non-increasingly by the area of the masks it extracted;
    [segment_by_color] then cleans every mask in place, keeping that order;
    and the document holds, between its two opening and its two closing
    parts, the groups of the contributing regions in the order of the
    region list. *)
Theorem C3_order_of_regions_and_groups
        (potrace : Mask -> string -> string -> string -> TraceRun)
        (find_paths : string -> list string) (re_sub_fill : string -> string -> string)
        (image : Image) (mask : Mask) (palette : list ColorInfo)
        (preserve_style : bool) (w h : nat) :
  let extracted := extract_color_regions image mask palette 10 in
  let regions := segment_by_color image mask palette preserve_style in
  StronglySorted (fun r1 r2 => (area (region_mask r2) <= area (region_mask r1))%nat)
                 extracted
  /\ regions = map (fun r => set_mask r (clean_boundaries (region_mask r) preserve_style))
                   extracted
  /\ svg_parts potrace find_paths re_sub_fill regions w h preserve_style =
     [svg_open_tag w h; ("<g id=" ++ dq ++ "drawing" ++ dq ++ ">")%string]
       ++ flat_map (group_of potrace find_paths re_sub_fill w h preserve_style)
                   (filter (contributes potrace find_paths w h preserve_style) regions)
       ++ ["</g>"; "</svg>"]%string.
Proof.
  cbv zeta. split; [|split].
  - unfold extract_color_regions.
    eapply StronglySorted_weaken;
      [|apply (sorted_sort_reverse (fun r => area (region_mask r)) Nat.leb
                                   le_total_bool le_trans_bool)].
    intros r1 r2 H. unfold desc in H. apply Nat.leb_le in H. exact H.
  - reflexivity.
  - apply svg_parts_groups.
Qed.

(** C3, as stated, fails: on the two-drawing image both regions are
    extracted with 121 set pixels, and the cleanup that follows the sort
    leaves 120 to the first and 121 to the second. *)
Lemma C3_counterexample :
  final_areas (extract_color_regions (snd two_color_map) two_mask (fst two_color_map) 10)
  = [121; 121]%nat
  /\ final_areas two_regions = [120; 121]%nat
  /\ ~ StronglySorted (fun a b => (b <= a)%nat) (final_areas two_regions).
Proof.
  assert (E : final_areas two_regions = [120; 121]%nat) by (vm_compute; reflexivity).
  split; [vm_compute; reflexivity|].
  split; [exact E|].
  rewrite E. intros H. inversion H as [|a l _ Hall]; subst.
  inversion Hall; subst. lia.
Qed.

(** ** The length of the document *)

Lemma string_length_append (s1 s2 : string) :
  String.length (s1 ++ s2) = (String.length s1 + String.length s2)%nat.
Proof. induction s1 as [|c s1 IH]; simpl; [reflexivity | rewrite IH; reflexivity]. Qed.

Lemma length_concat_sum (sep : string) (l : list string) :
  (list_sum (map String.length l) <= String.length (String.concat sep l))%nat.
Proof.
  induction l as [|x l IH]; simpl; [lia|].
  destruct l as [|y l].
  - simpl. lia.
  - rewrite !string_length_append. simpl in IH |- *. lia.
Qed.

Lemma length_svg_open_tag (w h : nat) : (75 <= String.length (svg_open_tag w h))%nat.
Proof.
  unfold svg_open_tag. rewrite !string_length_append. simpl. lia.
Qed.

Section DocumentLength.

Variable potrace : Mask -> string -> string -> string -> TraceRun.
Variable find_paths : string -> list string.
Variable re_sub_fill : string -> string -> string.

(** The two opening and the two closing parts alone make the document at
    least 101 characters long, whatever the regions contribute. *)
Lemma length_vectorize_regions (regions : list ColorRegion) (w h : nat) (style : bool) :
  (101 <= String.length (vectorize_regions potrace find_paths re_sub_fill
                                           regions w h style))%nat.
Proof.
  unfold vectorize_regions. rewrite svg_parts_groups.
  eapply Nat.le_trans; [|apply length_concat_sum].
  rewrite !map_app, !list_sum_app.
  pose proof (length_svg_open_tag w h) as Hopen.
  revert Hopen. generalize (svg_open_tag w h). intros open_tag Hopen.
  simpl. lia.
Qed.

Lemma vectorize_regions_passes_guard (regions : list ColorRegion) (w h : nat)
      (style : bool) :
  let svg_content := vectorize_regions potrace find_paths re_sub_fill regions w h style in
  negb (truthy svg_content) || (String.length svg_content <? 100)%nat = false.
Proof.
  cbv zeta. pose proof (length_vectorize_regions regions w h style) as H.
  apply orb_false_iff; split.
  - destruct (vectorize_regions potrace find_paths re_sub_fill regions w h style);
      [simpl in H; lia | reflexivity].
  - apply Nat.ltb_ge. lia.
Qed.

(** A region whose trace gives nothing adds no part. *)
Lemma svg_parts_skip (l1 l2 : list ColorRegion) (r : ColorRegion) (w h : nat)
      (style : bool) :
  vectorize_mask_to_svg potrace (region_mask r) (hex (color_info r)) w h style
  = EmptyString ->
  svg_parts potrace find_paths re_sub_fill (l1 ++ r :: l2) w h style =
  svg_parts potrace find_paths re_sub_fill (l1 ++ l2) w h style.
Proof.
  intros Hr. rewrite !svg_parts_groups, !filter_app. simpl filter.
  unfold contributes at 2, traced_paths. rewrite Hr. reflexivity.
Qed.

End DocumentLength.

(** ** The request handler *)

Section HandlerFacts.

Variable kmeans : nat -> list Pixel -> result KMeansFit.
Variable potrace : Mask -> string -> string -> string -> TraceRun.
Variable find_paths : string -> list string.
Variable re_sub_fill : string -> string -> string.
Variable add_metadata : string -> list ColorInfo -> nat * nat -> string -> string.

(** With a palette and at least one region the handler always answers 200:
    the guard on the length of the document cannot fire. *)
Lemma process_image_success (original_size : nat * nat) (image : Image) (mask : Mask)
      (colorCount : Z) (preserve_style : bool)
      (palette : list ColorInfo) (flattened : Image) :
  create_color_map kmeans image mask (Z.max 3 (Z.min 7 colorCount))
  = Returned (palette, flattened) ->
  palette <> [] ->
  segment_by_color flattened mask palette preserve_style <> [] ->
  let regions := segment_by_color flattened mask palette preserve_style in
  let style := (if preserve_style then "authentic" else "clean")%string in
  process_image kmeans potrace find_paths re_sub_fill add_metadata
                original_size image mask colorCount preserve_style
  = Success200
      (postprocess_svg add_metadata
         (vectorize_regions potrace find_paths re_sub_fill regions
                            (np.cols image) (np.rows image) preserve_style)
         palette original_size style)
      palette original_size (np.cols image, np.rows image)
      (List.length palette) (List.length regions) style.
Proof.
  intros Hcm Hpal Hseg. cbv zeta. unfold process_image. rewrite Hcm.
  destruct palette as [|c palette]; [contradiction|].
  destruct (segment_by_color flattened mask (c :: palette) preserve_style)
    as [|r regions] eqn:Er; [contradiction|].
  rewrite vectorize_regions_passes_guard. reflexivity.
Qed.

End HandlerFacts.

(** C5, as the code has it: when the trace of one region gives nothing, the
    document is the one the other regions alone would give, the request
    succeeds, and [regionCount] is the number of regions that segmentation
    produced, the failed one included. *)
Theorem C5_failed_trace_is_counted
        (kmeans : nat -> list Pixel -> result KMeansFit)
        (potrace : Mask -> string -> string -> string -> TraceRun)
        (find_paths : string -> list string) (re_sub_fill : string -> string -> string)
        (add_metadata : string -> list ColorInfo -> nat * nat -> string -> string)
        (original_size : nat * nat) (image : Image) (mask : Mask)
        (colorCount : Z) (preserve_style : bool)
        (palette : list ColorInfo) (flattened : Image)
        (before after : list ColorRegion) (failed : ColorRegion) :
  create_color_map kmeans image mask (Z.max 3 (Z.min 7 colorCount))
  = Returned (palette, flattened) ->
  palette <> [] ->
  segment_by_color flattened mask palette preserve_style = before ++ failed :: after ->
  vectorize_mask_to_svg potrace (region_mask failed) (hex (color_info failed))
                        (np.cols image) (np.rows image) preserve_style
  = EmptyString ->
  let style := (if preserve_style then "authentic" else "clean")%string in
  process_image kmeans potrace find_paths re_sub_fill add_metadata
                original_size image mask colorCount preserve_style
  = Success200
      (postprocess_svg add_metadata
         (vectorize_regions potrace find_paths re_sub_fill (before ++ after)
                            (np.cols image) (np.rows image) preserve_style)
         palette original_size style)
      palette original_size (np.cols image, np.rows image)
      (List.length palette) (List.length before + 1 + List.length after) style.
Proof.
  intros Hcm Hpal Hseg Hfail. cbv zeta.
  rewrite (process_image_success kmeans potrace find_paths re_sub_fill add_metadata
             original_size image mask colorCount preserve_style palette flattened
             Hcm Hpal).
  - rewrite Hseg. unfold vectorize_regions.
    rewrite (svg_parts_skip potrace find_paths re_sub_fill before after failed
                            _ _ _ Hfail).
    rewrite length_app. simpl List.length.
    replace (List.length before + S (List.length after))%nat
      with (List.length before + 1 + List.length after)%nat by lia.
    reflexivity.
  - rewrite Hseg. destruct before; discriminate.
Qed.

(** The theorem at the two-drawing image, with the tracer failing for the
    teal region, the first of the two. *)
Lemma C5_failed_trace_is_counted_witness :
  process_image (kmeans_of [bgr_of teal; bgr_of rust]) (potrace_fails_on (hex teal))
                find_one_path re_sub_fill_done add_no_metadata
                (34, 26)%nat two_image two_mask 5 true
  = Success200
      (postprocess_svg add_no_metadata
         (vectorize_regions (potrace_fails_on (hex teal)) find_one_path re_sub_fill_done
                            ([] ++ tl two_regions)
                            (np.cols two_image) (np.rows two_image) true)
         (fst two_color_map) (34, 26)%nat "authentic")
      (fst two_color_map) (34, 26)%nat (np.cols two_image, np.rows two_image)
      (List.length (fst two_color_map))
      (List.length (@nil ColorRegion) + 1 + List.length (tl two_regions)) "authentic".
Proof.
  apply (C5_failed_trace_is_counted
           (kmeans_of [bgr_of teal; bgr_of rust]) (potrace_fails_on (hex teal))
           find_one_path re_sub_fill_done add_no_metadata (34, 26)%nat
           two_image two_mask 5 true (fst two_color_map) (snd two_color_map)
           [] (tl two_regions) (hd (ColorRegion_init teal []) two_regions)).
  - vm_compute. reflexivity.
  - vm_compute. discriminate.
  - vm_compute. reflexivity.
  - vm_compute. reflexivity.
Defined.

(** C5, as stated, fails: with the tracer failing for the teal region only,
    the request succeeds with [regionCount] 2 while one region contributed
    path content. *)
Lemma C5_counterexample :
  List.length (filter (contributes (potrace_fails_on (hex teal)) find_one_path 34 26 true)
                      two_regions) = 1%nat
  /\ regionCount_of (process_two (potrace_fails_on (hex teal))) = Some 2%nat.
Proof.
  split; vm_compute; reflexivity.
Qed.

(** C1 at a concrete request: with a tracer that fails for every region the
    document holds its four wrapper parts and no path, its length is 112,
    and the handler answers 200 with it. *)
Theorem C1_all_traces_fail_still_success :
  vectorize_regions potrace_fails find_one_path re_sub_fill_done two_regions 34 26 true
  = String.concat nl [svg_open_tag 34 26;
                      ("<g id=" ++ dq ++ "drawing" ++ dq ++ ">")%string;
                      "</g>"%string; "</svg>"%string]
  /\ String.length
       (vectorize_regions potrace_fails find_one_path re_sub_fill_done two_regions 34 26 true)
     = 112%nat
  /\ process_two potrace_fails
     = Success200
         (String.concat nl [svg_open_tag 34 26;
                            ("<g id=" ++ dq ++ "drawing" ++ dq ++ ">")%string;
                            "</g>"%string; "</svg>"%string])
         (fst two_color_map) (34, 26)%nat (34, 26)%nat 2 2 "authentic".
Proof.
  split; [vm_compute; reflexivity|].
  split; vm_compute; reflexivity.
Qed.

(** ** Stage 2: the foreground pixels *)

Lemma filter_combine_nil {A} (irow : list A) (row : list Z) :
  filter (fun v => 128 <? v) row = [] ->
  filter (fun pv : A * Z => 128 <? snd pv) (combine irow row) = [].
Proof.
  revert irow. induction row as [|v row IH]; intros [|p irow]; simpl; auto.
  destruct (128 <? v); [discriminate|]. intros H. apply IH, H.
Qed.

Lemma select_nil_of_area {A} (image : np.array2 A) (mask : Mask) :
  area mask = 0%nat -> np.select image mask = [].
Proof.
  unfold area, np.count_gt, np.select.
  revert image. induction mask as [|row mask IH]; intros [|irow image]; simpl; auto.
  intros H.
  assert (Hrow : filter (fun v => 128 <? v) row = [])
    by (destruct (filter (fun v => 128 <? v) row); [reflexivity | simpl in H; lia]).
  rewrite (filter_combine_nil irow row Hrow). simpl.
  apply IH. rewrite Hrow in H. exact H.
Qed.

(** C8: for an image whose foreground mask sets no pixel, palette
    extraction returns the empty palette and the image itself, without
    calling k-means and without raising, and the handler answers 500 with the
    no-colours error, whose text differs from that of the no-regions
    error. *)
Theorem C8_blank_image_fails_with_no_colors
        (kmeans : nat -> list Pixel -> result KMeansFit)
        (potrace : Mask -> string -> string -> string -> TraceRun)
        (find_paths : string -> list string) (re_sub_fill : string -> string -> string)
        (add_metadata : string -> list ColorInfo -> nat * nat -> string -> string)
        (original_size : nat * nat) (image : Image) (mask : Mask)
        (colorCount : Z) (preserve_style : bool) :
  area mask = 0%nat ->
  (forall n_colors min_color_percentage,
      extract_dominant_colors kmeans image mask n_colors min_color_percentage
      = Returned ([], image))
  /\ (forall n_colors, create_color_map kmeans image mask n_colors = Returned ([], image))
  /\ process_image kmeans potrace find_paths re_sub_fill add_metadata
                   original_size image mask colorCount preserve_style
     = Failure 500 "Failed to extract colors from image" None
  /\ "Failed to extract colors from image"%string
     <> "Failed to segment image into color regions"%string.
Proof.
  intros Hblank.
  assert (Hex : forall n_colors min_color_percentage,
             extract_dominant_colors kmeans image mask n_colors min_color_percentage
             = Returned ([], image)).
  { intros n_colors m. unfold extract_dominant_colors.
    rewrite (select_nil_of_area image mask Hblank). reflexivity. }
  assert (Hcm : forall n_colors,
             create_color_map kmeans image mask n_colors = Returned ([], image)).
  { intros n_colors. unfold create_color_map. rewrite Hex. reflexivity. }
  split; [exact Hex|]. split; [exact Hcm|]. split.
  - unfold process_image. rewrite Hcm. reflexivity.
  - discriminate.
Qed.

(** The theorem at the blank sheet. *)
Lemma C8_blank_image_fails_with_no_colors_witness :
  (forall n_colors min_color_percentage,
      extract_dominant_colors (kmeans_of []) blank_image blank_mask
                              n_colors min_color_percentage
      = Returned ([], blank_image))
  /\ (forall n_colors,
         create_color_map (kmeans_of []) blank_image blank_mask n_colors
         = Returned ([], blank_image))
  /\ process_image (kmeans_of []) potrace_fails find_one_path re_sub_fill_done
                   add_no_metadata (6, 4)%nat blank_image blank_mask 5 true
     = Failure 500 "Failed to extract colors from image" None
  /\ "Failed to extract colors from image"%string
     <> "Failed to segment image into color regions"%string.
Proof.
  apply (C8_blank_image_fails_with_no_colors
           (kmeans_of []) potrace_fails find_one_path re_sub_fill_done add_no_metadata
           (6, 4)%nat blank_image blank_mask 5 true).
  vm_compute. reflexivity.
Defined.

(** ** Stage 2: the palette *)



Lemma color_infos_spec (counts : list Z) (total : Z) (minpct : Q)
      (colors : list Pixel) (i : nat) (e : ColorInfo) :
  In e (color_infos counts total minpct i colors) ->
  percentage e = (inject_Z (count e) / inject_Z total * 100)%Q
  /\ Qle_bool minpct (percentage e) = true
  /\ In (bgr_of e) colors.
Proof.
  revert i. induction colors as [|c colors IH]; intros i; simpl; [tauto|].
  set (cnt := if (i <? List.length counts)%nat then nth i counts 0 else 0).
  destruct (Qle_bool minpct (inject_Z cnt / inject_Z total * 100)) eqn:Hle.
  - destruct c as ((b, g), r). simpl. intros [<-|H].
    + simpl. auto.
    + destruct (IH _ H) as (H1 & H2 & H3). auto.
  - intros H. destruct (IH _ H) as (H1 & H2 & H3). auto.
Qed.



(** ** Stage 2: the number of clusters *)

Lemma In_insert_unique (u v : nat) (l : list nat) :
  In u (insert_unique v l) <-> u = v \/ In u l.
Proof.
  induction l as [|w l IH]; simpl; [intuition|].
  destruct (v <? w)%nat eqn:Hlt; [simpl; intuition|].
  destruct (v =? w)%nat eqn:Heq.
  - apply Nat.eqb_eq in Heq. subst. simpl. intuition.
  - simpl. rewrite IH. intuition.
Qed.

Lemma In_np_unique (u : nat) (labels : list nat) :
  In u (fst (np_unique labels)) <-> In u labels.
Proof.
  unfold np_unique; simpl.
  induction labels as [|v labels IH]; simpl; [tauto|].
  rewrite In_insert_unique, IH. intuition.
Qed.

Lemma np_unique_counts_positive (labels : list nat) :
  Forall (fun c => 1 <= c) (snd (np_unique labels)).
Proof.
  apply Forall_forall. intros c Hc.
  change (snd (np_unique labels))
    with (map (fun u => Z.of_nat (count_occ Nat.eq_dec labels u)) (fst (np_unique labels)))
    in Hc.
  apply in_map_iff in Hc as (u & <- & Hu).
  apply (proj1 (In_np_unique u labels)) in Hu.
  apply (proj1 (count_occ_In Nat.eq_dec labels u)) in Hu. lia.
Qed.

Lemma length_np_unique (labels : list nat) :
  List.length (snd (np_unique labels)) = List.length (fst (np_unique labels)).
Proof. unfold np_unique; simpl. apply length_map. Qed.

Lemma length_color_infos_le (counts : list Z) (total : Z) (minpct : Q)
      (colors : list Pixel) (i : nat) :
  (List.length (color_infos counts total minpct i colors) <= List.length colors)%nat.
Proof.
  revert i. induction colors as [|c colors IH]; intros i; simpl; [lia|].
  specialize (IH (S i)).
  destruct (Qle_bool minpct _); [destruct c as ((b, g), r); simpl|]; lia.
Qed.






(** ** Stage 2: the flattened image *)

Lemma argmin_from_spec (d : Z) (ds pre : list Z) (best : nat) (least : Z) :
  (best < List.length pre)%nat ->
  nth best pre d = least ->
  (forall j, (j < List.length pre)%nat -> least <= nth j pre d) ->
  (forall j, (j < best)%nat -> least < nth j pre d) ->
  let r := argmin_from (List.length pre) best least ds in
  (r < List.length (pre ++ ds))%nat
  /\ (forall j, (j < List.length (pre ++ ds))%nat ->
                nth r (pre ++ ds) d <= nth j (pre ++ ds) d)
  /\ (forall j, (j < r)%nat -> nth r (pre ++ ds) d < nth j (pre ++ ds) d).
Proof.
  revert pre best least.
  induction ds as [|x ds IH]; intros pre best least Hb Hn Hmin Hfirst; simpl.
  - rewrite app_nil_r. subst least. auto.
  - assert (Hlen : List.length (pre ++ [x]) = S (List.length pre))
      by (rewrite length_app; simpl; lia).
    assert (Hx : nth (List.length pre) (pre ++ [x]) d = x)
      by (rewrite app_nth2, Nat.sub_diag by lia; reflexivity).
    assert (Hpre : forall j, (j < List.length pre)%nat ->
                             nth j (pre ++ [x]) d = nth j pre d)
      by (intros j Hj; apply app_nth1, Hj).
    replace (pre ++ x :: ds) with ((pre ++ [x]) ++ ds)
      by (rewrite <- app_assoc; reflexivity).
    rewrite <- Hlen.
    destruct (x <? least) eqn:Hlt.
    + apply Z.ltb_lt in Hlt.
      apply (IH (pre ++ [x]) (List.length pre) x).
      * lia.
      * exact Hx.
      * intros j Hj. destruct (Nat.eq_dec j (List.length pre)) as [->|Hne].
        -- rewrite Hx. lia.
        -- rewrite Hpre by lia. specialize (Hmin j). lia.
      * intros j Hj. rewrite Hpre by lia. specialize (Hmin j). lia.
    + apply Z.ltb_ge in Hlt.
      apply (IH (pre ++ [x]) best least).
      * lia.
      * rewrite Hpre by lia. exact Hn.
      * intros j Hj. destruct (Nat.eq_dec j (List.length pre)) as [->|Hne].
        -- rewrite Hx. lia.
        -- rewrite Hpre by lia. apply Hmin. lia.
      * intros j Hj. rewrite Hpre by lia. apply Hfirst, Hj.
Qed.

(** [np.argmin] on a non-empty list: a position of the least entry, and the
    first one. *)
Lemma argmin_spec (d : Z) (ds : list Z) :
  ds <> [] ->
  (argmin ds < List.length ds)%nat
  /\ (forall j, (j < List.length ds)%nat -> nth (argmin ds) ds d <= nth j ds d)
  /\ (forall j, (j < argmin ds)%nat -> nth (argmin ds) ds d < nth j ds d).
Proof.
  destruct ds as [|x ds]; [congruence|]. intros _.
  apply (argmin_from_spec d ds [x] 0%nat x).
  - simpl; lia.
  - reflexivity.
  - intros [|j] Hj; simpl in *; lia.
  - intros j Hj; lia.
Qed.

Lemma In_select {A} (image : np.array2 A) (mask : Mask) (y x : Z) (p : A) (v : Z) :
  np.entry image y x = Some p -> np.entry mask y x = Some v -> 128 < v ->
  In p (np.select image mask).
Proof.
  unfold np.entry, np.select. intros Hp Hv Hset.
  destruct ((0 <=? y) && (0 <=? x)); [|discriminate].
  destruct (nth_error image (Z.to_nat y)) as [irow|] eqn:Hirow; [|discriminate].
  destruct (nth_error mask (Z.to_nat y)) as [row|] eqn:Hrow; [|discriminate].
  apply in_concat.
  exists (map fst (filter (fun pv : A * Z => 128 <? snd pv) (combine irow row))).
  split.
  - apply in_map_iff. exists (irow, row). split; [reflexivity|].
    apply (nth_error_In _ (Z.to_nat y)).
    rewrite nth_error_combine, Hirow, Hrow. reflexivity.
  - apply in_map_iff. exists (p, v). split; [reflexivity|].
    apply filter_In. split.
    + apply (nth_error_In _ (Z.to_nat x)).
      rewrite nth_error_combine, Hp, Hv. reflexivity.
    + apply Z.ltb_lt, Hset.
Qed.

Lemma pixel_u8_astype (c : Q * Q * Q) :
  pixel_u8 (let '(b, g, r) := c in (astype_uint8 b, astype_uint8 g, astype_uint8 r))
  = (let '(b, g, r) := c in (astype_uint8 b, astype_uint8 g, astype_uint8 r)).
Proof.
  destruct c as ((b, g), r). unfold pixel_u8, astype_uint8.
  rewrite !Z.mod_mod by lia. reflexivity.
Qed.

(** The colours of an extracted palette are bytes. *)
Lemma palette_is_u8 (kmeans : nat -> list Pixel -> result KMeansFit)
      (image : Image) (mask : Mask) (n_colors : Z) (minpct : Q)
      (palette : list ColorInfo) (color_mapped : Image) (c : ColorInfo) :
  extract_dominant_colors kmeans image mask n_colors minpct
  = Returned (palette, color_mapped) ->
  In c palette -> pixel_u8 (bgr_of c) = bgr_of c.
Proof.
  unfold extract_dominant_colors. intros H Hc.
  destruct (Z.of_nat (List.length (np.select image mask)) =? 0).
  { injection H as <- _. contradiction. }
  match type of H with
  | match kmeans ?k ?px with _ => _ end = _ =>
      destruct (kmeans k px) as [[centers labels]|msg]
  end; [|discriminate].
  injection H as <- _.
  apply In_sort_reverse, color_infos_spec in Hc as (_ & _ & Hc).
  apply in_map_iff in Hc as (q & <- & _). apply pixel_u8_astype.
Qed.

(** C4, as the code has it: in the flattened image that palette extraction
    returns with a non-empty palette, a pixel under the mask holds the colour
    of the palette entry nearest to the input pixel (least squared distance,
    the earliest entry among equals), and a pixel outside the mask keeps the
    colour it has in the input image. *)
Theorem C4_flattened_pixels
        (kmeans : nat -> list Pixel -> result KMeansFit)
        (image : Image) (mask : Mask) (n_colors : Z)
        (palette : list ColorInfo) (flattened : Image)
        (y x : Z) (p : Pixel) (v : Z) :
  create_color_map kmeans image mask n_colors = Returned (palette, flattened) ->
  palette <> [] ->
  np.entry image y x = Some p ->
  np.entry mask y x = Some v ->
  (128 < v ->
   exists i c,
     nth_error palette i = Some c
     /\ np.entry flattened y x = Some (bgr_of c)
     /\ (forall j c', nth_error palette j = Some c' ->
                      sqdist p (bgr_of c) <= sqdist p (bgr_of c'))
     /\ (forall j c', (j < i)%nat -> nth_error palette j = Some c' ->
                      sqdist p (bgr_of c) < sqdist p (bgr_of c')))
  /\ (v <= 128 -> np.entry flattened y x = Some p).
Proof.
  intros Hcm Hne Hp Hv. unfold create_color_map in Hcm.
  destruct (extract_dominant_colors kmeans image mask n_colors 2)
    as [[palette' mapped]|msg] eqn:Hex; [|discriminate].
  injection Hcm as -> <-.
  unfold flatten_colors.
  destruct palette as [|c0 rest] eqn:Epal; [congruence|]. rewrite <- Epal in *.
  set (palette_bgr := map bgr_of palette).
  set (f := fun (p : Pixel) (v : Z) =>
              if 128 <? v
              then pixel_u8 (nth (argmin (map (sqdist p) palette_bgr)) palette_bgr (0, 0, 0))
              else p).
  assert (Hzip : np.entry (np.zip_with f image mask) y x = Some (f p v))
    by (rewrite entry_zip_with, Hp, Hv; reflexivity).
  split.
  - intros Hset.
    pose proof (In_select image mask y x p v Hp Hv Hset) as Hin.
    destruct (np.select image mask) as [|p0 ps] eqn:Esel; [contradiction|].
    simpl Nat.eqb. cbv iota.
    set (ds := map (sqdist p) palette_bgr).
    assert (Hds : ds <> [])
      by (subst ds palette_bgr; rewrite Epal; discriminate).
    destruct (argmin_spec 0 ds Hds) as (Hlt & Hmin & Hfirst).
    assert (Hlen : List.length ds = List.length palette)
      by (subst ds palette_bgr; rewrite !length_map; reflexivity).
    assert (Hnth : forall j c', nth_error palette j = Some c' ->
                                nth j ds 0 = sqdist p (bgr_of c')).
    { intros j c' Hj. subst ds palette_bgr. rewrite map_map.
      apply nth_error_nth. rewrite nth_error_map, Hj. reflexivity. }
    destruct (nth_error palette (argmin ds)) as [c|] eqn:Hc;
      [|apply nth_error_None in Hc; lia].
    exists (argmin ds), c. split; [exact Hc|]. split; [|split].
    + rewrite Hzip. unfold f.
      apply Z.ltb_lt in Hset. rewrite Hset.
      fold ds.
      assert (E : nth (argmin ds) palette_bgr (0, 0, 0) = bgr_of c)
        by (subst palette_bgr; apply nth_error_nth;
            rewrite nth_error_map, Hc; reflexivity).
      rewrite E.
      rewrite (palette_is_u8 kmeans image mask n_colors 2 palette mapped c Hex);
        [reflexivity | apply nth_error_In in Hc; exact Hc].
    + intros j c' Hj. rewrite <- (Hnth _ _ Hc), <- (Hnth _ _ Hj).
      apply Hmin. rewrite Hlen. apply nth_error_Some. congruence.
    + intros j c' Hji Hj. rewrite <- (Hnth _ _ Hc), <- (Hnth _ _ Hj).
      apply Hfirst, Hji.
  - intros Hclear.
    destruct (List.length (np.select image mask) =? 0)%nat.
    + exact Hp.
    + rewrite Hzip. unfold f.
      assert (E : (128 <? v) = false) by (apply Z.ltb_ge; exact Hclear).
      rewrite E. reflexivity.
Qed.

(** The theorem at the foreground pixel of the edge image. *)
Lemma C4_flattened_pixels_witness :
  (128 < 255 ->
   exists i c,
     nth_error (fst edge_color_map) i = Some c
     /\ np.entry (snd edge_color_map) 0 0 = Some (bgr_of c)
     /\ (forall j c', nth_error (fst edge_color_map) j = Some c' ->
                      sqdist (bgr_of teal) (bgr_of c) <= sqdist (bgr_of teal) (bgr_of c'))
     /\ (forall j c', (j < i)%nat -> nth_error (fst edge_color_map) j = Some c' ->
                      sqdist (bgr_of teal) (bgr_of c) < sqdist (bgr_of teal) (bgr_of c')))
  /\ (255 <= 128 -> np.entry (snd edge_color_map) 0 0 = Some (bgr_of teal)).
Proof.
  apply (C4_flattened_pixels (kmeans_of [bgr_of teal]) edge_image edge_mask 5
                             (fst edge_color_map) (snd edge_color_map)
                             0 0 (bgr_of teal) 255).
  - vm_compute. reflexivity.
  - vm_compute. discriminate.
  - vm_compute. reflexivity.
  - vm_compute. reflexivity.
Defined.

(** C4, as stated, fails: the palette is not empty, the pixel [(0, 1)] is
    outside the mask, and in the flattened image it is black as in the input,
    not white. *)
Lemma C4_counterexample :
  fst edge_color_map <> []
  /\ np.entry edge_mask 0 1 = Some 0
  /\ np.entry (snd edge_color_map) 0 1 = Some (0, 0, 0)
  /\ np.entry (snd edge_color_map) 0 1 <> Some white.
Proof.
  split; [vm_compute; discriminate|].
  split; [vm_compute; reflexivity|].
  split; [vm_compute; reflexivity | vm_compute; discriminate].
Qed.

(** * Further properties of the modelled code *)

(** ** The bounding box of a region *)

Lemma In_combine_seq {A} (l : list A) (s i : nat) (a : A) :
  In (i, a) (combine (seq s (List.length l)) l) <->
  (s <= i)%nat /\ nth_error l (i - s) = Some a.
Proof.
  revert s. induction l as [|b l IH]; intros s; simpl.
  - split; [tauto | intros (_ & H); destruct (i - s)%nat; discriminate].
  - rewrite IH. split.
    + intros [[= <- <-]|(Hs & H)].
      * rewrite Nat.sub_diag. auto.
      * split; [lia|]. replace (i - s)%nat with (S (i - S s)) by lia. exact H.
    + intros (Hs & H). destruct (Nat.eq_dec i s) as [->|Hne].
      * rewrite Nat.sub_diag in H. injection H as <-. left; reflexivity.
      * right. split; [lia|].
        replace (i - s)%nat with (S (i - S s)) in H by lia. exact H.
Qed.

Lemma In_where_set (mask : Mask) (y x : nat) :
  In (y, x) (where_set mask) <-> is_set mask (Z.of_nat y) (Z.of_nat x).
Proof.
  unfold where_set. rewrite in_concat, is_set_entry. unfold np.entry.
  replace ((0 <=? Z.of_nat y) && (0 <=? Z.of_nat x)) with true
    by (symmetry; apply andb_true_iff; split; apply Z.leb_le; lia).
  rewrite !Nat2Z.id. split.
  - intros (l & Hl & Hin).
    apply in_map_iff in Hl as ((y', row) & <- & Hrow). simpl in Hin.
    apply in_map_iff in Hin as ((x', v) & [= <- <-] & Hv).
    apply filter_In in Hv as (Hv & Hset). simpl in Hset.
    apply In_combine_seq in Hrow as (_ & Hrow).
    apply In_combine_seq in Hv as (_ & Hv).
    rewrite Nat.sub_0_r in Hrow, Hv. rewrite Hrow.
    exists v. split; [exact Hv | apply Z.ltb_lt, Hset].
  - intros (v & Hv & Hset).
    destruct (nth_error mask y) as [row|] eqn:Hrow; [|discriminate].
    eexists. split.
    + apply in_map_iff. exists (y, row). split; [reflexivity|].
      apply In_combine_seq. rewrite Nat.sub_0_r. split; [lia | exact Hrow].
    + simpl. apply in_map_iff. exists (x, v). split; [reflexivity|].
      apply filter_In. split.
      * apply In_combine_seq. rewrite Nat.sub_0_r. split; [lia | exact Hv].
      * apply Z.ltb_lt, Hset.
Qed.

Lemma fold_min_spec (a : nat) (l : list nat) :
  In (fold_right Nat.min a l) (a :: l)
  /\ forall b, In b (a :: l) -> (fold_right Nat.min a l <= b)%nat.
Proof.
  induction l as [|c l (Hin & Hle)]; simpl.
  - split; [auto | intros b [<-|[]]; lia].
  - split.
    + destruct (Nat.min_spec c (fold_right Nat.min a l)) as [(_ & ->)|(_ & ->)].
      * auto.
      * destruct Hin as [Hin|Hin]; auto.
    + intros b [<-|[<-|Hb]].
      * specialize (Hle a (or_introl eq_refl)). lia.
      * lia.
      * specialize (Hle b (or_intror Hb)). lia.
Qed.

Lemma fold_max_spec (a : nat) (l : list nat) :
  In (fold_right Nat.max a l) (a :: l)
  /\ forall b, In b (a :: l) -> (b <= fold_right Nat.max a l)%nat.
Proof.
  induction l as [|c l (Hin & Hle)]; simpl.
  - split; [auto | intros b [<-|[]]; lia].
  - split.
    + destruct (Nat.max_spec c (fold_right Nat.max a l)) as [(_ & ->)|(_ & ->)].
      * destruct Hin as [Hin|Hin]; auto.
      * auto.
    + intros b [<-|[<-|Hb]].
      * specialize (Hle a (or_introl eq_refl)). lia.
      * lia.
      * specialize (Hle b (or_intror Hb)). lia.
Qed.

(** X1: the bounding box that [ColorRegion] computes holds every set pixel
    of the mask, and it is tight: each of its four sides passes through a
    set pixel. *)
Theorem bounds_hold_the_mask (mask : Mask) (y x : nat) :
  is_set mask (Z.of_nat y) (Z.of_nat x) ->
  let b := _calculate_bounds mask in
  ((bx b <= x < bx b + bwidth b)%nat /\ (by_ b <= y < by_ b + bheight b)%nat)
  /\ (exists y', is_set mask (Z.of_nat y') (Z.of_nat (bx b)))
  /\ (exists y', is_set mask (Z.of_nat y') (Z.of_nat (bx b + bwidth b - 1)))
  /\ (exists x', is_set mask (Z.of_nat (by_ b)) (Z.of_nat x'))
  /\ (exists x', is_set mask (Z.of_nat (by_ b + bheight b - 1)) (Z.of_nat x')).
Proof.
  intros Hset. apply In_where_set in Hset. cbv zeta.
  unfold _calculate_bounds.
  assert (Hall : forall y' x', In (y', x') (where_set mask) ->
                               is_set mask (Z.of_nat y') (Z.of_nat x'))
    by (intros y' x'; apply In_where_set).
  destruct (where_set mask) as [|(y0, x0) rest]; [contradiction|].
  set (ys := map fst rest). set (xs := map snd rest).
  assert (Hy : In y (y0 :: ys))
    by (destruct Hset as [[= <- <-]|H]; [left; reflexivity
        | right; apply (in_map fst _ _ H)]).
  assert (Hx : In x (x0 :: xs))
    by (destruct Hset as [[= <- <-]|H]; [left; reflexivity
        | right; apply (in_map snd _ _ H)]).
  destruct (fold_min_spec y0 ys) as (Hymin_in & Hymin).
  destruct (fold_max_spec y0 ys) as (Hymax_in & Hymax).
  destruct (fold_min_spec x0 xs) as (Hxmin_in & Hxmin).
  destruct (fold_max_spec x0 xs) as (Hxmax_in & Hxmax).
  assert (Hrow : forall y', In y' (y0 :: ys) ->
                            exists x', is_set mask (Z.of_nat y') (Z.of_nat x')).
  { intros y' [<-|H]; [exists x0; apply Hall; left; reflexivity|].
    apply in_map_iff in H as ((y1, x1) & <- & H). exists x1. apply Hall. right; exact H. }
  assert (Hcol : forall x', In x' (x0 :: xs) ->
                            exists y', is_set mask (Z.of_nat y') (Z.of_nat x')).
  { intros x' [<-|H]; [exists y0; apply Hall; left; reflexivity|].
    apply in_map_iff in H as ((y1, x1) & <- & H). exists y1. apply Hall. right; exact H. }
  pose proof (Hymin _ Hy). pose proof (Hymax _ Hy).
  pose proof (Hxmin _ Hx). pose proof (Hxmax _ Hx).
  simpl bx; simpl by_; simpl bwidth; simpl bheight.
  split; [lia|].
  split; [apply Hcol, Hxmin_in|].
  split.
  { replace (fold_right Nat.min x0 xs + (fold_right Nat.max x0 xs
               - fold_right Nat.min x0 xs + 1) - 1)%nat
      with (fold_right Nat.max x0 xs) by lia.
    apply Hcol, Hxmax_in. }
  split; [apply Hrow, Hymin_in|].
  replace (fold_right Nat.min y0 ys + (fold_right Nat.max y0 ys
             - fold_right Nat.min y0 ys + 1) - 1)%nat
    with (fold_right Nat.max y0 ys) by lia.
  apply Hrow, Hymax_in.
Qed.

(** The theorem at the 2 by 2 block of rows and columns 1 to 2. *)
Lemma bounds_hold_the_mask_witness :
  let b := _calculate_bounds small_block in
  ((bx b <= 2 < bx b + bwidth b)%nat /\ (by_ b <= 1 < by_ b + bheight b)%nat)
  /\ (exists y', is_set small_block (Z.of_nat y') (Z.of_nat (bx b)))
  /\ (exists y', is_set small_block (Z.of_nat y') (Z.of_nat (bx b + bwidth b - 1)))
  /\ (exists x', is_set small_block (Z.of_nat (by_ b)) (Z.of_nat x'))
  /\ (exists x', is_set small_block (Z.of_nat (by_ b + bheight b - 1)) (Z.of_nat x')).
Proof.
  apply (bounds_hold_the_mask small_block 1 2).
  vm_compute. reflexivity.
Defined.

(** X2: a mask without a set pixel has the bounding box [0, 0, 0, 0]. *)
Theorem bounds_of_an_empty_mask (mask : Mask) :
  area mask = 0%nat -> _calculate_bounds mask = mkBounds 0 0 0 0.
Proof.
  intros Harea. unfold _calculate_bounds.
  destruct (where_set mask) as [|(y0, x0) rest] eqn:E; [reflexivity|].
  assert (Hin : In (y0, x0) (where_set mask)) by (rewrite E; left; reflexivity).
  apply In_where_set, is_set_entry in Hin as (v & Hv & Hset).
  assert (Hsel : In v (np.select mask mask))
    by (apply (In_select mask mask _ _ v v Hv Hv Hset)).
  rewrite (select_nil_of_area mask mask Harea) in Hsel. contradiction.
Qed.

(** The theorem at the blank mask. *)
Lemma bounds_of_an_empty_mask_witness :
  _calculate_bounds blank_mask = mkBounds 0 0 0 0.
Proof.
  apply (bounds_of_an_empty_mask blank_mask). vm_compute. reflexivity.
Defined.
(** ** Where the regions come from *)

Lemma length_flat_map_le {A B} (f : A -> list B) (l : list A) :
  (forall a, (List.length (f a) <= 1)%nat) ->
  (List.length (flat_map f l) <= List.length l)%nat.
Proof.
  intros Hf. induction l as [|a l IH]; simpl; [lia|].
  rewrite length_app. specialize (Hf a). lia.
Qed.

(** X3: segmentation yields at most one region per palette entry; a region
    carries the colour of its entry, the mask of that colour after the
    boundary cleanup, and the bounding box of the mask as it was before the
    cleanup; and the mask had more than 100 set pixels then. *)
Theorem regions_come_from_the_palette (image : Image) (mask : Mask)
        (palette : list ColorInfo) (preserve_style : bool) (r : ColorRegion) :
  In r (segment_by_color image mask palette preserve_style) ->
  (List.length (segment_by_color image mask palette preserve_style)
   <= List.length palette)%nat
  /\ exists ci,
       In ci palette
       /\ color_info r = ci
       /\ region_mask r
          = clean_boundaries (color_mask_of image mask ci 10) preserve_style
       /\ bounds r = _calculate_bounds (color_mask_of image mask ci 10)
       /\ (100 < area (color_mask_of image mask ci 10))%nat.
Proof.
  intros Hr. split.
  - unfold segment_by_color, extract_color_regions.
    rewrite length_map, length_sort_reverse.
    apply length_flat_map_le. intros ci.
    destruct (100 <? area (color_mask_of image mask ci 10))%nat; simpl; lia.
  - unfold segment_by_color in Hr. apply in_map_iff in Hr as (r0 & <- & Hr0).
    apply In_extract_color_regions in Hr0 as (ci & Hci & Harea & ->).
    exists ci. repeat split; assumption.
Qed.

(** The theorem at the first region of the two-drawing image. *)
Lemma regions_come_from_the_palette_witness :
  (List.length (segment_by_color (snd two_color_map) two_mask (fst two_color_map) true)
   <= List.length (fst two_color_map))%nat
  /\ exists ci,
       In ci (fst two_color_map)
       /\ color_info (hd (ColorRegion_init teal []) two_regions) = ci
       /\ region_mask (hd (ColorRegion_init teal []) two_regions)
          = clean_boundaries (color_mask_of (snd two_color_map) two_mask ci 10) true
       /\ bounds (hd (ColorRegion_init teal []) two_regions)
          = _calculate_bounds (color_mask_of (snd two_color_map) two_mask ci 10)
       /\ (100 < area (color_mask_of (snd two_color_map) two_mask ci 10))%nat.
Proof.
  apply (regions_come_from_the_palette (snd two_color_map) two_mask
                                       (fst two_color_map) true).
  vm_compute. left. reflexivity.
Defined.

(** ** Colours at the ends of the byte range *)

Lemma area_zero_of_clear (m : Mask) :
  (forall y x, ~ is_set m y x) -> area m = 0%nat.
Proof.
  intros Hclear. unfold area, np.count_gt.
  assert (Hrows : forall row, In row m -> filter (fun v => 128 <? v) row = []).
  { intros row Hrow. destruct (filter (fun v => 128 <? v) row) as [|v l] eqn:E;
      [reflexivity|].
    assert (Hv : In v (filter (fun v => 128 <? v) row)) by (rewrite E; left; reflexivity).
    apply filter_In in Hv as (Hv & Hset).
    apply In_nth_error in Hrow as (y & Hy). apply In_nth_error in Hv as (x & Hx).
    exfalso. apply (Hclear (Z.of_nat y) (Z.of_nat x)).
    apply is_set_entry. exists v. split; [|apply Z.ltb_lt, Hset].
    unfold np.entry.
    replace ((0 <=? Z.of_nat y) && (0 <=? Z.of_nat x)) with true
      by (symmetry; apply andb_true_iff; split; apply Z.leb_le; lia).
    rewrite !Nat2Z.id, Hy. exact Hx. }
  induction m as [|row m IH]; simpl; [reflexivity|].
  rewrite (Hrows row) by (left; reflexivity). simpl.
  apply IH.
  - intros y x H. apply (Hclear (y + 1) x).
    apply is_set_entry in H as (v & Hv & Hset). apply is_set_entry. exists v.
    split; [|exact Hset]. unfold np.entry in *.
    destruct (0 <=? y) eqn:Hy; [|discriminate].
    destruct (0 <=? x) eqn:Hx; [|discriminate]. simpl in Hv.
    apply Z.leb_le in Hy.
    replace (0 <=? y + 1) with true by (symmetry; apply Z.leb_le; lia). simpl.
    replace (Z.to_nat (y + 1)) with (S (Z.to_nat y)) by lia. exact Hv.
  - intros row' Hrow'. apply Hrows. right; exact Hrow'.
Qed.

Lemma near_color_mask_of_candidate (image : Image) (mask : Mask) (ci : ColorInfo)
      (tol : Z) :
  exists lower upper,
    near 2 0 (color_mask_of image mask ci tol)
         (cv2.bitwise_and (cv2.inRange image lower upper) mask)
    /\ (let '(r, g, b) := rgb ci in
        lower = (Z.max (u8 (u8 b - tol)) 0, Z.max (u8 (u8 g - tol)) 0,
                 Z.max (u8 (u8 r - tol)) 0)
        /\ upper = (Z.min (u8 (u8 b + tol)) 255, Z.min (u8 (u8 g + tol)) 255,
                    Z.min (u8 (u8 r + tol)) 255)).
Proof.
  unfold color_mask_of. destruct (rgb ci) as ((r, g), b). cbv zeta.
  do 2 eexists. split; [|split; reflexivity].
  match goal with
  | |- near _ _ (cv2.morphologyEx (cv2.morphologyEx ?X _ _ _) _ _ _) _ =>
      change (near (1 + 1) (0 + 0)
                   (cv2.morphologyEx (cv2.morphologyEx X cv2.MORPH_OPEN 2 1)
                                     cv2.MORPH_CLOSE 2 1) X)
  end.
  eapply near_trans; [apply near_close2 | apply near_open2].
Qed.

Lemma inRange_empty_interval (image : Image) (lower upper : Pixel) (mask : Mask)
      (y x : Z) :
  (let '(lb, lg, lr) := lower in
   let '(ub, ug, ur) := upper in
   ub < lb \/ ug < lg \/ ur < lr) ->
  ~ is_set (cv2.bitwise_and (cv2.inRange image lower upper) mask) y x.
Proof.
  intros Hempty H. apply is_set_entry in H as (v & Hv & Hlt).
  unfold cv2.bitwise_and, cv2.inRange in Hv.
  rewrite entry_zip_with, entry_map in Hv.
  destruct (np.entry image y x) as [p|]; [|discriminate]. simpl in Hv.
  destruct (np.entry mask y x) as [u|]; [|discriminate].
  injection Hv as <-.
  destruct p as ((b, g), r), lower as ((lb, lg), lr), upper as ((ub, ug), ur).
  destruct ((lb <=? b) && (b <=? ub) && (lg <=? g) && (g <=? ug)
            && (lr <=? r) && (r <=? ur)) eqn:E.
  - rewrite !andb_true_iff, !Z.leb_le in E. lia.
  - simpl in Hlt. lia.
Qed.

(** X4: for a palette colour with a channel below 10 or above 245 the
    byte arithmetic of [target_bgr - tolerance] or [target_bgr + tolerance]
    wraps around, the interval given to [cv2.inRange] is empty, the colour's
    mask has no set pixel, and the colour gets no region, whatever the
    image. *)
Theorem end_of_range_colour_gets_no_region (image : Image) (mask : Mask)
        (palette : list ColorInfo) (preserve_style : bool)
        (ci : ColorInfo) (r g b : Z) :
  rgb ci = (r, g, b) ->
  0 <= r <= 255 -> 0 <= g <= 255 -> 0 <= b <= 255 ->
  wraps 10 r \/ wraps 10 g \/ wraps 10 b ->
  (forall y x, ~ is_set (color_mask_of image mask ci 10) y x)
  /\ forall region,
       In region (segment_by_color image mask palette preserve_style) ->
       color_info region <> ci.
Proof.
  intros Hrgb Hr Hg Hb Hwrap.
  assert (Hclear : forall y x, ~ is_set (color_mask_of image mask ci 10) y x).
  { intros y x H.
    destruct (near_color_mask_of_candidate image mask ci 10)
      as (lower & upper & Hnear & Hbounds).
    rewrite Hrgb in Hbounds. destruct Hbounds as (-> & ->).
    destruct (Hnear y x H) as (y' & x' & _ & _ & H').
    revert H'. apply inRange_empty_interval.
    unfold wraps, u8 in *.
    rewrite (Z.mod_small r), (Z.mod_small g), (Z.mod_small b) by lia.
    Z.div_mod_to_equations. lia. }
  split; [exact Hclear|].
  intros region Hregion Hci.
  unfold segment_by_color in Hregion.
  apply in_map_iff in Hregion as (r0 & <- & Hr0).
  apply In_extract_color_regions in Hr0 as (ci' & _ & Harea & ->).
  simpl in Hci. subst ci'.
  rewrite (area_zero_of_clear _ Hclear) in Harea. lia.
Qed.

(** The theorem at pure red, [(255, 0, 0)], on the two-drawing image. *)
Lemma end_of_range_colour_gets_no_region_witness :
  (forall y x,
      ~ is_set (color_mask_of two_image two_mask (ColorInfo_init (255, 0, 0) 1 100) 10) y x)
  /\ forall region,
       In region (segment_by_color two_image two_mask
                                   [ColorInfo_init (255, 0, 0) 1 100] true) ->
       color_info region <> ColorInfo_init (255, 0, 0) 1 100.
Proof.
  apply (end_of_range_colour_gets_no_region
           two_image two_mask [ColorInfo_init (255, 0, 0) 1 100] true
           (ColorInfo_init (255, 0, 0) 1 100) 255 0 0).
  - reflexivity.
  - lia.
  - lia.
  - lia.
  - left. right. lia.
Defined.
(** ** The shape of the masks *)

Lemma has_entry_imap {A B} (f : Z -> Z -> B) (a : np.array2 A) (y x : Z) :
  has_entry (np.imap f a) y x <-> has_entry a y x.
Proof.
  unfold has_entry. rewrite entry_imap.
  destruct (np.entry a y x) as [v|]; split; intros (w & H);
    try discriminate; eauto.
Qed.

Lemma has_entry_iter (f : Mask -> Mask) (n : nat) (m : Mask) (y x : Z) :
  (forall m', has_entry (f m') y x <-> has_entry m' y x) ->
  has_entry (Nat.iter n f m) y x <-> has_entry m y x.
Proof.
  intros Hf. induction n as [|n IH]; simpl; [tauto|]. rewrite Hf. exact IH.
Qed.

Lemma has_entry_morphologyEx (m : Mask) (op : cv2.MorphOp) (k n : nat) (y x : Z) :
  has_entry (cv2.morphologyEx m op k n) y x <-> has_entry m y x.
Proof.
  assert (He : forall m', has_entry (cv2.erode k m') y x <-> has_entry m' y x)
    by (intros m'; apply has_entry_imap).
  assert (Hd : forall m', has_entry (cv2.dilate k m') y x <-> has_entry m' y x)
    by (intros m'; apply has_entry_imap).
  destruct op; unfold cv2.morphologyEx.
  - rewrite (has_entry_iter _ n _ y x Hd). apply (has_entry_iter _ n _ y x He).
  - rewrite (has_entry_iter _ n _ y x He). apply (has_entry_iter _ n _ y x Hd).
Qed.

Lemma has_entry_clean_boundaries (m : Mask) (preserve_style : bool) (y x : Z) :
  has_entry (clean_boundaries m preserve_style) y x <-> has_entry m y x.
Proof.
  unfold clean_boundaries. destruct preserve_style; cbv beta iota delta [negb].
  - apply has_entry_morphologyEx.
  - rewrite !has_entry_morphologyEx. tauto.
Qed.

Lemma has_entry_color_mask_of (image : Image) (mask : Mask) (ci : ColorInfo) (tol : Z)
      (y x : Z) :
  has_entry (color_mask_of image mask ci tol) y x
  <-> has_entry image y x /\ has_entry mask y x.
Proof.
  unfold color_mask_of. destruct (rgb ci) as ((r, g), b). cbv zeta.
  rewrite !has_entry_morphologyEx.
  unfold has_entry, cv2.bitwise_and, cv2.inRange.
  rewrite entry_zip_with, entry_map.
  destruct (np.entry image y x) as [p|], (np.entry mask y x) as [v|]; simpl;
    split; try (intros (w & H); discriminate);
    try (intros ((w & H) & (w' & H')); discriminate); eauto.
Qed.

(** X5: every region's mask has the shape of the image and its foreground
    mask: it has an entry exactly where both of them have one, in both
    cleanup modes. *)
Theorem region_masks_keep_the_shape (image : Image) (mask : Mask)
        (palette : list ColorInfo) (preserve_style : bool) (r : ColorRegion)
        (y x : Z) :
  In r (segment_by_color image mask palette preserve_style) ->
  (has_entry (region_mask r) y x <-> has_entry image y x /\ has_entry mask y x).
Proof.
  intros Hr. apply In_segment_by_color in Hr as (ci & _ & ->).
  rewrite has_entry_clean_boundaries. apply has_entry_color_mask_of.
Qed.

(** The theorem at the first region of the two-drawing image and the last
    pixel of its last row. *)
Lemma region_masks_keep_the_shape_witness :
  has_entry (region_mask (hd (ColorRegion_init teal []) two_regions)) 25 33
  <-> has_entry (snd two_color_map) 25 33 /\ has_entry two_mask 25 33.
Proof.
  apply (region_masks_keep_the_shape (snd two_color_map) two_mask
                                     (fst two_color_map) true).
  vm_compute. left. reflexivity.
Defined.
(** ** What the handler answers *)

(** X6: the handler, from stage 2 on, gives one of four answers: 500 with
    the exception text when palette extraction raises, 500 for an empty
    palette, 500 for an empty region list, or 200 with at least one colour
    and one region; the answer "Vectorization failed or produced empty
    result" is never given. *)
Theorem process_image_answers
        (kmeans : nat -> list Pixel -> result KMeansFit)
        (potrace : Mask -> string -> string -> string -> TraceRun)
        (find_paths : string -> list string) (re_sub_fill : string -> string -> string)
        (add_metadata : string -> list ColorInfo -> nat * nat -> string -> string)
        (original_size : nat * nat) (image : Image) (mask : Mask)
        (colorCount : Z) (preserve_style : bool) :
  let response :=
    process_image kmeans potrace find_paths re_sub_fill add_metadata
                  original_size image mask colorCount preserve_style in
  ((exists msg, response = Failure 500 "Failed to process image" (Some msg))
   \/ response = Failure 500 "Failed to extract colors from image" None
   \/ response = Failure 500 "Failed to segment image into color regions" None
   \/ exists svg colors processedSize colorCount regionCount style,
        response = Success200 svg colors original_size processedSize
                              colorCount regionCount style
        /\ (1 <= colorCount)%nat /\ (1 <= regionCount)%nat)
  /\ response <> Failure 500 "Vectorization failed or produced empty result" None.
Proof.
  cbv zeta. unfold process_image.
  destruct (create_color_map kmeans image mask (Z.max 3 (Z.min 7 colorCount)))
    as [[palette flattened]|msg].
  - destruct palette as [|c palette].
    + split; [right; left; reflexivity | discriminate].
    + destruct (segment_by_color flattened mask (c :: palette) preserve_style)
        as [|r regions].
      * split; [right; right; left; reflexivity | discriminate].
      * rewrite vectorize_regions_passes_guard.
        split; [|discriminate].
        right; right; right. do 6 eexists.
        split; [reflexivity | simpl; lia].
  - split; [left; eexists; reflexivity | discriminate].
Qed.

(** ** The size and the counts of the palette *)

Lemma insert_unique_sorted (v : nat) (l : list nat) :
  StronglySorted lt l -> StronglySorted lt (insert_unique v l).
Proof.
  induction 1 as [|u l Hs IH Hu]; simpl.
  - repeat constructor.
  - destruct (v <? u)%nat eqn:Hlt.
    + apply Nat.ltb_lt in Hlt. constructor; [constructor; assumption|].
      constructor; [exact Hlt|].
      rewrite Forall_forall in *. intros w Hw. specialize (Hu w Hw). lia.
    + destruct (v =? u)%nat eqn:Heq; [constructor; assumption|].
      apply Nat.ltb_ge in Hlt. apply Nat.eqb_neq in Heq.
      constructor; [exact IH|].
      rewrite Forall_forall in *. intros w Hw.
      apply In_insert_unique in Hw as [->|Hw]; [lia | apply Hu, Hw].
Qed.

Lemma NoDup_of_sorted (l : list nat) : StronglySorted lt l -> NoDup l.
Proof.
  induction 1 as [|u l Hs IH Hu]; constructor; [|exact IH].
  intros Hin. rewrite Forall_forall in Hu. specialize (Hu u Hin). lia.
Qed.

Lemma NoDup_np_unique (labels : list nat) : NoDup (fst (np_unique labels)).
Proof.
  apply NoDup_of_sorted. unfold np_unique; simpl.
  induction labels as [|v labels IH]; simpl; [constructor|].
  apply insert_unique_sorted, IH.
Qed.

Lemma Zsum_indicator (v : nat) (U : list nat) :
  NoDup U -> In v U ->
  Zsum (map (fun u => if Nat.eq_dec v u then 1 else 0) U) = 1.
Proof.
  induction 1 as [|u U Hu Hnd IH]; simpl; [tauto|].
  intros [->|Hin].
  - destruct (Nat.eq_dec v v) as [_|Hne]; [|congruence].
    assert (E : Zsum (map (fun u => if Nat.eq_dec v u then 1 else 0) U) = 0).
    { clear IH Hnd. induction U as [|w U IHU]; simpl; [reflexivity|].
      destruct (Nat.eq_dec v w) as [->|_]; [exfalso; apply Hu; left; reflexivity|].
      rewrite IHU; [reflexivity | intros H; apply Hu; right; exact H]. }
    unfold Zsum in E |- *. rewrite E. reflexivity.
  - destruct (Nat.eq_dec v u) as [->|_]; [contradiction|].
    unfold Zsum in IH |- *. rewrite IH by exact Hin. reflexivity.
Qed.

(** Counting the occurrences of every distinct value counts every element
    once. *)
Lemma Zsum_count_occ (labels U : list nat) :
  NoDup U -> (forall v, In v labels -> In v U) ->
  Zsum (map (fun u => Z.of_nat (count_occ Nat.eq_dec labels u)) U)
  = Z.of_nat (List.length labels).
Proof.
  intros Hnd. induction labels as [|v labels IH]; intros Hall.
  - clear Hnd Hall. induction U as [|u U IHU]; simpl; [reflexivity|].
    unfold Zsum in IHU |- *. simpl in IHU |- *. rewrite IHU. reflexivity.
  - assert (E : map (fun u => Z.of_nat (count_occ Nat.eq_dec (v :: labels) u)) U
                = map (fun u => Z.of_nat (count_occ Nat.eq_dec labels u)
                                + (if Nat.eq_dec v u then 1 else 0)) U).
    { apply map_ext. intros u. simpl. destruct (Nat.eq_dec v u); lia. }
    rewrite E.
    assert (Hsplit : forall (f g : nat -> Z) (l : list nat),
               Zsum (map (fun u => f u + g u) l) = Zsum (map f l) + Zsum (map g l)).
    { intros f g l. induction l as [|a l IHl]; simpl; [reflexivity|].
      unfold Zsum in IHl |- *. rewrite IHl. lia. }
    rewrite Hsplit, IH by (intros w Hw; apply Hall; right; exact Hw).
    rewrite (Zsum_indicator v U Hnd) by (apply Hall; left; reflexivity).
    simpl List.length. lia.
Qed.

Lemma Zsum_np_unique (labels : list nat) :
  Zsum (snd (np_unique labels)) = Z.of_nat (List.length labels).
Proof.
  change (snd (np_unique labels))
    with (map (fun u => Z.of_nat (count_occ Nat.eq_dec labels u)) (fst (np_unique labels))).
  apply Zsum_count_occ; [apply NoDup_np_unique|].
  intros v Hv. apply In_np_unique, Hv.
Qed.

Lemma Zsum_skipn_nonneg (counts : list Z) (i : nat) :
  Forall (fun c => 0 <= c) counts -> 0 <= Zsum (skipn i counts).
Proof.
  intros H. revert i. induction H as [|c counts Hc _ IH]; intros [|i]; simpl; try lia.
  - specialize (IH 0%nat). simpl in IH. unfold Zsum in *. lia.
  - apply IH.
Qed.

Lemma skipn_nth (counts : list Z) (i : nat) :
  (i < List.length counts)%nat ->
  skipn i counts = nth i counts 0 :: skipn (S i) counts.
Proof.
  revert i. induction counts as [|c counts IH]; intros [|i] Hi; simpl in *; try lia.
  - reflexivity.
  - apply IH. lia.
Qed.

(** The entries made from index [i] on carry counts of different clusters
    from index [i] on. *)
Lemma Zsum_color_infos (counts : list Z) (total : Z) (minpct : Q)
      (colors : list Pixel) (i : nat) :
  Forall (fun c => 0 <= c) counts ->
  Zsum (map count (color_infos counts total minpct i colors)) <= Zsum (skipn i counts).
Proof.
  intros Hpos. revert i. induction colors as [|c colors IH]; intros i.
  - simpl. apply Zsum_skipn_nonneg, Hpos.
  - simpl color_infos. specialize (IH (S i)).
    set (rest := color_infos counts total minpct (S i) colors) in *.
    destruct c as ((b, g), r).
    destruct (i <? List.length counts)%nat eqn:Hi.
    + apply Nat.ltb_lt in Hi. rewrite (skipn_nth counts i Hi).
      set (later := skipn (S i) counts) in *.
      assert (Hc : 0 <= nth i counts 0)
        by (rewrite Forall_forall in Hpos; apply Hpos, nth_In, Hi).
      destruct (Qle_bool minpct _); unfold Zsum in *; simpl; lia.
    + apply Nat.ltb_ge in Hi.
      assert (E : skipn i counts = skipn (S i) counts)
        by (rewrite !skipn_all2 by lia; reflexivity).
      rewrite E.
      set (later := skipn (S i) counts) in *.
      destruct (Qle_bool minpct _); unfold Zsum in *; simpl; lia.
Qed.

Lemma Zsum_count_sort_reverse (l : list ColorInfo) :
  Zsum (map count (sort_reverse percentage Qle_bool l)) = Zsum (map count l).
Proof.
  assert (Hp : forall a b : list Z, Permutation a b -> Zsum a = Zsum b)
    by (induction 1; simpl; unfold Zsum in *; simpl; lia).
  apply Hp, Permutation_map, Permutation_sym, Permutation_sort_reverse.
Qed.

(** X7: when the fit keeps scikit-learn's contract, the palette has at most
    7 entries, and the pixel counts of its entries add up to no more than the
    number of foreground pixels, so its percentages to no more than 100. *)
Theorem palette_is_bounded
        (kmeans : nat -> list Pixel -> result KMeansFit)
        (image : Image) (mask : Mask) (n_colors : Z) (min_color_percentage : Q)
        (palette : list ColorInfo) (color_mapped : Image) :
  kmeans_contract kmeans ->
  extract_dominant_colors kmeans image mask n_colors min_color_percentage
  = Returned (palette, color_mapped) ->
  (List.length palette <= 7)%nat
  /\ Forall (fun e => 0 <= count e) palette
  /\ Zsum (map count palette) <= Z.of_nat (List.length (np.select image mask)).
Proof.
  intros Hcontract H. unfold extract_dominant_colors in H.
  set (pixels := np.select image mask) in *.
  set (len := Z.of_nat (List.length pixels)) in *.
  destruct (len =? 0) eqn:E0.
  { injection H as <- _. simpl. repeat split; [lia | constructor | unfold Zsum; simpl; lia]. }
  apply Z.eqb_neq in E0.
  match type of H with
  | match kmeans ?k _ with _ => _ end = _ =>
      destruct (kmeans k pixels) as [[centers labels]|msg] eqn:Hfit
  end; [|discriminate].
  injection H as <- _.
  destruct (Hcontract _ _ _ _ Hfit) as (Hcenters & Hlabels).
  assert (Hpos : Forall (fun c => 0 <= c) (snd (np_unique labels))).
  { eapply Forall_impl; [|apply np_unique_counts_positive]. intros c Hc. simpl in Hc. lia. }
  split; [|split].
  - rewrite length_sort_reverse.
    eapply Nat.le_trans; [apply length_color_infos_le|].
    rewrite length_map, Hcenters.
    destruct (len <? Z.max 3 (Z.min 7 n_colors)) eqn:Elt;
      [apply Z.ltb_lt in Elt|]; lia.
  - apply Forall_forall. intros e He.
    apply In_sort_reverse in He.
    assert (Hsome : forall counts total minpct colors i,
               Forall (fun c => 0 <= c) counts ->
               In e (color_infos counts total minpct i colors) -> 0 <= count e).
    { intros counts total minpct colors.
      induction colors as [|c colors IH]; intros i Hc Hin; simpl in Hin; [contradiction|].
      assert (Hcnt : 0 <= (if (i <? List.length counts)%nat then nth i counts 0 else 0)).
      { destruct (i <? List.length counts)%nat eqn:Hi; [|lia].
        apply Nat.ltb_lt in Hi. rewrite Forall_forall in Hc. apply Hc, nth_In, Hi. }
      destruct (Qle_bool minpct _).
      - destruct c as ((b, g), r). destruct Hin as [<-|Hin]; [exact Hcnt|].
        apply (IH (S i) Hc Hin).
      - apply (IH (S i) Hc Hin). }
    apply (Hsome _ _ _ _ _ Hpos He).
  - rewrite Zsum_count_sort_reverse.
    eapply Z.le_trans; [apply Zsum_color_infos, Hpos|].
    change (Zsum (snd (np_unique labels)) <= len).
    rewrite (Zsum_np_unique labels), Hlabels. subst len. lia.
Qed.

Lemma kmeans_of_contract (centers : list Pixel) : kmeans_contract (kmeans_of centers).
Proof.
  intros k pixels cs labels H. unfold kmeans_of in H.
  injection H as <- <-. rewrite !length_map. split; [|reflexivity].
  rewrite length_firstn, length_app, repeat_length. lia.
Qed.

(** The theorem at the two-drawing image. *)
Lemma palette_is_bounded_witness :
  (List.length (fst two_extracted) <= 7)%nat
  /\ Forall (fun e => 0 <= count e) (fst two_extracted)
  /\ Zsum (map count (fst two_extracted))
     <= Z.of_nat (List.length (np.select two_image two_mask)).
Proof.
  apply (palette_is_bounded (kmeans_of [bgr_of teal; bgr_of rust])
                            two_image two_mask 5 2
                            (fst two_extracted) (snd two_extracted)).
  - apply kmeans_of_contract.
  - vm_compute. reflexivity.
Defined.

(** ** Flattening twice *)

Lemma combine_map_combine {A B C} (h : A * B -> C) (a : list A) (b : list B) :
  combine (map h (combine a b)) b = map (fun ab => (h ab, snd ab)) (combine a b).
Proof.
  revert b. induction a as [|x a IH]; intros [|y b]; simpl; try reflexivity.
  rewrite IH. reflexivity.
Qed.

Lemma zip_with_zip_with {A B} (f g : A -> B -> A) (a : np.array2 A) (b : np.array2 B) :
  np.zip_with f (np.zip_with g a b) b = np.zip_with (fun p v => f (g p v) v) a b.
Proof.
  unfold np.zip_with. rewrite combine_map_combine, map_map.
  apply map_ext. intros (ra, rb). simpl.
  rewrite combine_map_combine, map_map. reflexivity.
Qed.

Lemma zip_with_ext {A B C} (f g : A -> B -> C) (a : np.array2 A) (b : np.array2 B) :
  (forall p v, f p v = g p v) -> np.zip_with f a b = np.zip_with g a b.
Proof.
  intros H. unfold np.zip_with. apply map_ext. intros rr.
  apply map_ext. intros vv. apply H.
Qed.

Lemma length_select_zip_with {A} (g : A -> Z -> A) (a : np.array2 A) (b : Mask) :
  List.length (np.select (np.zip_with g a b) b) = List.length (np.select a b).
Proof.
  unfold np.select, np.zip_with. rewrite combine_map_combine, map_map.
  rewrite !length_concat, !map_map. f_equal. apply map_ext. intros (ra, rb). simpl.
  rewrite combine_map_combine, !length_map.
  clear. revert rb. induction ra as [|x ra IH]; intros [|y rb]; simpl; try reflexivity.
  destruct (128 <? y); simpl; rewrite IH; reflexivity.
Qed.

Lemma sqdist_zero (p q : Pixel) : sqdist p q <= 0 -> q = p.
Proof.
  destruct p as ((pb, pg), pr), q as ((qb, qg), qr). unfold sqdist. intros H.
  pose proof (Z.square_nonneg (pb - qb)) as Hb.
  pose proof (Z.square_nonneg (pg - qg)) as Hg.
  pose proof (Z.square_nonneg (pr - qr)) as Hr.
  assert (Eb : (pb - qb) * (pb - qb) = 0) by lia.
  assert (Eg : (pg - qg) * (pg - qg) = 0) by lia.
  assert (Er : (pr - qr) * (pr - qr) = 0) by lia.
  apply Z.mul_eq_0 in Eb, Eg, Er.
  f_equal; [f_equal|]; lia.
Qed.

(** X8: flattening is idempotent: for a palette of byte colours, as
    extraction returns them, flattening a flattened image again with the
    same mask and palette changes nothing. *)
Theorem flatten_colors_idempotent (image : Image) (mask : Mask)
        (palette : list ColorInfo) :
  (forall c, In c palette -> pixel_u8 (bgr_of c) = bgr_of c) ->
  flatten_colors (flatten_colors image mask palette) mask palette
  = flatten_colors image mask palette.
Proof.
  intros Hu8. unfold flatten_colors.
  destruct palette as [|c0 rest] eqn:Epal; [reflexivity|]. rewrite <- Epal in *.
  set (palette_bgr := map bgr_of palette).
  set (f := fun (p : Pixel) (v : Z) =>
              if 128 <? v
              then pixel_u8 (nth (argmin (map (sqdist p) palette_bgr)) palette_bgr (0, 0, 0))
              else p).
  destruct (List.length (np.select image mask) =? 0)%nat eqn:Esel.
  { rewrite Esel. reflexivity. }
  rewrite length_select_zip_with, Esel.
  rewrite zip_with_zip_with. apply zip_with_ext. intros p v. unfold f.
  destruct (128 <? v); [|reflexivity].
  assert (Hpick : forall q, exists c, In c palette
             /\ nth (argmin (map (sqdist q) palette_bgr)) palette_bgr (0, 0, 0) = bgr_of c
             /\ forall c', In c' palette -> sqdist q (bgr_of c) <= sqdist q (bgr_of c')).
  { intros q. set (ds := map (sqdist q) palette_bgr).
    assert (Hds : ds <> []) by (subst ds palette_bgr; rewrite Epal; discriminate).
    destruct (argmin_spec 0 ds Hds) as (Hlt & Hmin & _).
    assert (Hlen : List.length ds = List.length palette)
      by (subst ds palette_bgr; rewrite !length_map; reflexivity).
    destruct (nth_error palette (argmin ds)) as [c|] eqn:Hc;
      [|apply nth_error_None in Hc; lia].
    assert (Hnth : forall j c', nth_error palette j = Some c' ->
                                nth j ds 0 = sqdist q (bgr_of c')).
    { intros j c' Hj. subst ds palette_bgr. rewrite map_map.
      apply nth_error_nth. rewrite nth_error_map, Hj. reflexivity. }
    exists c. split; [apply nth_error_In in Hc; exact Hc|]. split.
    - subst palette_bgr. apply nth_error_nth. rewrite nth_error_map, Hc. reflexivity.
    - intros c' Hc'. apply In_nth_error in Hc' as (j & Hj).
      rewrite <- (Hnth _ _ Hc), <- (Hnth _ _ Hj).
      apply Hmin. rewrite Hlen. apply nth_error_Some. congruence. }
  destruct (Hpick p) as (c & Hc & -> & _).
  rewrite (Hu8 c Hc).
  destruct (Hpick (bgr_of c)) as (c' & Hc' & -> & Hmin).
  rewrite (Hu8 c' Hc').
  apply sqdist_zero.
  eapply Z.le_trans; [apply (Hmin c Hc)|].
  destruct (bgr_of c) as ((b, g), r). unfold sqdist. lia.
Qed.

(** The theorem at the two-drawing image and its extracted palette. *)
Lemma flatten_colors_idempotent_witness :
  flatten_colors (flatten_colors two_image two_mask (fst two_color_map))
                 two_mask (fst two_color_map)
  = flatten_colors two_image two_mask (fst two_color_map).
Proof.
  apply (flatten_colors_idempotent two_image two_mask (fst two_color_map)).
  intros c Hc. vm_compute in Hc.
  destruct Hc as [<-|[<-|[]]]; vm_compute; reflexivity.
Defined.

(** ** Upload validation *)

Lemma after_last_dot_none (s : string) :
  has_dot s = false -> after_last_dot s = None.
Proof.
  induction s as [|c s IH]; simpl; [reflexivity|].
  intros H. apply orb_false_iff in H as (Hc & Hs).
  rewrite (IH Hs), Hc. reflexivity.
Qed.

Lemma after_last_dot_app (stem ext : string) :
  has_dot ext = false ->
  after_last_dot (stem ++ String "."%char ext) = Some ext.
Proof.
  intros Hext. induction stem as [|c stem IH]; simpl.
  - rewrite (after_last_dot_none ext Hext). reflexivity.
  - rewrite IH. reflexivity.
Qed.

(** X9: [allowed_file] looks only at the text after the last dot, without
    regard to case: a name without a dot is refused, and a name that ends in
    a dot and a dot-free extension is accepted exactly when the lower-cased
    extension is one of png, jpg, jpeg and webp, whatever precedes the
    dot. *)
Theorem allowed_file_last_extension (stem ext : string) :
  has_dot ext = false ->
  allowed_file ext = false
  /\ allowed_file (stem ++ String "."%char ext)
     = existsb (String.eqb (str_lower ext)) ALLOWED_EXTENSIONS.
Proof.
  intros Hext. unfold allowed_file.
  rewrite (after_last_dot_none ext Hext), (after_last_dot_app stem ext Hext).
  split; reflexivity.
Qed.

(** The theorem at the upper-case extension of [drawing.final.PNG]. *)
Lemma allowed_file_last_extension_witness :
  allowed_file "PNG" = false
  /\ allowed_file ("drawing.final" ++ String "."%char "PNG")
     = existsb (String.eqb (str_lower "PNG")) ALLOWED_EXTENSIONS.
Proof.
  apply (allowed_file_last_extension "drawing.final" "PNG"). reflexivity.
Defined.

(** ** The hex string of a colour *)

Lemma hex_digit_injective (v w : Z) :
  0 <= v < 16 -> 0 <= w < 16 -> hex_digit v = hex_digit w -> v = w.
Proof.
  intros Hv Hw.
  assert (Ev : v = Z.of_nat (Z.to_nat v)) by lia.
  assert (Ew : w = Z.of_nat (Z.to_nat w)) by lia.
  assert (Hnv : (Z.to_nat v < 16)%nat) by lia.
  assert (Hnw : (Z.to_nat w < 16)%nat) by lia.
  unfold hex_digit. rewrite Ev, Ew, !Nat2Z.id.
  generalize dependent (Z.to_nat w). generalize dependent (Z.to_nat v).
  intros n _ Hn m _ Hm.
  do 16 (destruct n as [|n]; [do 16 (destruct m as [|m];
           [simpl; intros; first [reflexivity | discriminate]|]); lia|]).
  lia.
Qed.

Lemma format_02x_injective (v w : Z) :
  0 <= v <= 255 -> 0 <= w <= 255 -> format_02x v = format_02x w -> v = w.
Proof.
  intros Hv Hw H. unfold format_02x in H. injection H as H1 H2.
  assert (Hvd : 0 <= v / 16 < 16) by (Z.div_mod_to_equations; lia).
  assert (Hwd : 0 <= w / 16 < 16) by (Z.div_mod_to_equations; lia).
  assert (Hvm : 0 <= v mod 16 < 16) by (Z.div_mod_to_equations; lia).
  assert (Hwm : 0 <= w mod 16 < 16) by (Z.div_mod_to_equations; lia).
  apply (hex_digit_injective _ _ Hvd Hwd) in H1.
  apply (hex_digit_injective _ _ Hvm Hwm) in H2.
  rewrite (Z.div_mod v 16), (Z.div_mod w 16) by lia.
  rewrite H1, H2. reflexivity.
Qed.

(** X10: the hex string of a colour of three bytes has 7 characters, and
    it names the colour: two byte colours with the same hex string are the
    same colour. *)
Theorem hex_names_the_colour (t t' : Z * Z * Z) (n n' : Z) (p p' : Q) :
  is_byte_triple t -> is_byte_triple t' ->
  String.length (hex (ColorInfo_init t n p)) = 7%nat
  /\ (hex (ColorInfo_init t n p) = hex (ColorInfo_init t' n' p') -> t = t').
Proof.
  destruct t as ((r, g), b), t' as ((r', g'), b').
  intros (Hr & Hg & Hb) (Hr' & Hg' & Hb').
  split; [reflexivity|].
  simpl. intros H. injection H as H1 H2 H3 H4 H5 H6.
  assert (Er : format_02x r = format_02x r') by (unfold format_02x; congruence).
  assert (Eg : format_02x g = format_02x g') by (unfold format_02x; congruence).
  assert (Eb : format_02x b = format_02x b') by (unfold format_02x; congruence).
  apply format_02x_injective in Er, Eg, Eb; try assumption.
  congruence.
Qed.

(** The theorem at teal and rust. *)
Lemma hex_names_the_colour_witness :
  String.length (hex (ColorInfo_init (100, 150, 200) 1 100)) = 7%nat
  /\ (hex (ColorInfo_init (100, 150, 200) 1 100) = hex (ColorInfo_init (180, 60, 40) 1 100)
      -> (100, 150, 200) = (180, 60, 40)).
Proof.
  apply (hex_names_the_colour (100, 150, 200) (180, 60, 40) 1 1 100 100);
    unfold is_byte_triple; lia.
Defined.

(** ** Stage 1: background removal *)

Lemma fold_min_binary {A} (g : A -> Z) (l : list A) :
  (forall o, g o = 0 \/ g o = 255) ->
  fold_right (fun o acc => Z.min (g o) acc) 255 l = 0
  \/ fold_right (fun o acc => Z.min (g o) acc) 255 l = 255.
Proof.
  intros Hg. induction l as [|o l IH]; simpl; [right; reflexivity|].
  destruct (Hg o), IH; lia.
Qed.

Lemma fold_max_binary {A} (g : A -> Z) (l : list A) :
  (forall o, g o = 0 \/ g o = 255) ->
  fold_right (fun o acc => Z.max (g o) acc) 0 l = 0
  \/ fold_right (fun o acc => Z.max (g o) acc) 0 l = 255.
Proof.
  intros Hg. induction l as [|o l IH]; simpl; [left; reflexivity|].
  destruct (Hg o), IH; lia.
Qed.

Lemma getZ_binary (m : Mask) (d : Z) (y x : Z) :
  is_binary m -> d = 0 \/ d = 255 -> np.getZ d m y x = 0 \/ np.getZ d m y x = 255.
Proof.
  intros Hm Hd. unfold np.getZ.
  destruct (np.entry m y x) as [v|] eqn:Hv; [exact (Hm _ _ _ Hv) | exact Hd].
Qed.

Lemma erode_binary (k : nat) (m : Mask) : is_binary m -> is_binary (cv2.erode k m).
Proof.
  intros Hm y x v Hv. unfold cv2.erode in Hv. rewrite entry_imap in Hv.
  destruct (np.entry m y x); [|discriminate]. injection Hv as <-.
  apply fold_min_binary. intros o. apply getZ_binary; [exact Hm | right; reflexivity].
Qed.

Lemma dilate_binary (k : nat) (m : Mask) : is_binary m -> is_binary (cv2.dilate k m).
Proof.
  intros Hm y x v Hv. unfold cv2.dilate in Hv. rewrite entry_imap in Hv.
  destruct (np.entry m y x); [|discriminate]. injection Hv as <-.
  apply fold_max_binary. intros o. apply getZ_binary; [exact Hm | left; reflexivity].
Qed.

Lemma iter_binary (f : Mask -> Mask) (n : nat) (m : Mask) :
  (forall m', is_binary m' -> is_binary (f m')) ->
  is_binary m -> is_binary (Nat.iter n f m).
Proof.
  intros Hf Hm. induction n as [|n IH]; simpl; [exact Hm | apply Hf, IH].
Qed.

Lemma morphologyEx_binary (m : Mask) (op : cv2.MorphOp) (k n : nat) :
  is_binary m -> is_binary (cv2.morphologyEx m op k n).
Proof.
  intros Hm. destruct op; unfold cv2.morphologyEx;
    repeat (apply iter_binary;
            [intros m'; first [apply erode_binary | apply dilate_binary]|]);
    exact Hm.
Qed.

(** X11: the threshold fallback returns a mask of zeros and 255s of the
    shape of the lightness channel, and an image that holds the input pixel
    wherever the mask is 255 and black wherever it is 0. *)
Theorem remove_background_traditional_masks_the_image
        (lab_lightness : Image -> Mask) (image : Image) (y x : Z) (p : Pixel) :
  np.entry image y x = Some p ->
  has_entry (lab_lightness image) y x ->
  let '(result, mask) := remove_background_traditional lab_lightness image in
  is_binary mask
  /\ ((np.entry mask y x = Some 255 /\ np.entry result y x = Some p)
      \/ (np.entry mask y x = Some 0 /\ np.entry result y x = Some (0, 0, 0))).
Proof.
  intros Hp Hl. unfold remove_background_traditional.
  set (thresholded := cv2_threshold_binary_inv (lab_lightness image) 240 255).
  set (mask := cv2.morphologyEx (cv2.morphologyEx thresholded cv2.MORPH_CLOSE 3 1)
                                cv2.MORPH_OPEN 3 1).
  assert (Hbin : is_binary mask).
  { apply morphologyEx_binary, morphologyEx_binary.
    intros y' x' v Hv. unfold thresholded, cv2_threshold_binary_inv in Hv.
    rewrite entry_map in Hv. destruct (np.entry (lab_lightness image) y' x') as [l|];
      [|discriminate]. injection Hv as <-. destruct (240 <? l); auto. }
  split; [exact Hbin|].
  assert (Hm : has_entry mask y x).
  { unfold mask. rewrite !has_entry_morphologyEx.
    destruct Hl as (l & Hl). unfold thresholded, cv2_threshold_binary_inv, has_entry.
    rewrite entry_map, Hl. eexists; reflexivity. }
  destruct Hm as (m & Hm).
  unfold cv2_bitwise_and_masked. rewrite entry_zip_with, Hp, Hm.
  destruct (Hbin _ _ _ Hm) as [->| ->]; [right | left]; split; reflexivity.
Qed.

(** The theorem at the first pixel of the two-drawing image, with the mean
    of the channels for lightness. *)
Lemma remove_background_traditional_masks_the_image_witness :
  let '(result, mask) := remove_background_traditional mean_lightness two_image in
  is_binary mask
  /\ ((np.entry mask 0 0 = Some 255 /\ np.entry result 0 0 = Some white)
      \/ (np.entry mask 0 0 = Some 0 /\ np.entry result 0 0 = Some (0, 0, 0))).
Proof.
  apply (remove_background_traditional_masks_the_image mean_lightness two_image 0 0 white).
  - vm_compute. reflexivity.
  - vm_compute. eexists. reflexivity.
Defined.

(** X12: when [rembg] is not installed, or raises on the image,
    preprocessing with [use_ai] set gives exactly what it gives without it:
    the failure of the remover does not reach the caller. *)
Theorem preprocess_image_falls_back
        (lab_lightness : Image -> Mask) (REMBG_AVAILABLE : bool)
        (rembg_remove : Image -> result (Image * Mask))
        (normalize_lighting reduce_noise_preserve_strokes : Image -> Image)
        (image : Image) :
  REMBG_AVAILABLE = false \/ (exists msg, rembg_remove image = Raised msg) ->
  preprocess_image lab_lightness REMBG_AVAILABLE rembg_remove
                   normalize_lighting reduce_noise_preserve_strokes image true
  = preprocess_image lab_lightness REMBG_AVAILABLE rembg_remove
                     normalize_lighting reduce_noise_preserve_strokes image false
  /\ snd (preprocess_image lab_lightness REMBG_AVAILABLE rembg_remove
                           normalize_lighting reduce_noise_preserve_strokes image true)
     = snd (remove_background_traditional lab_lightness image).
Proof.
  intros H. unfold preprocess_image, remove_background_ai.
  destruct REMBG_AVAILABLE.
  - destruct H as [H|(msg & H)]; [discriminate|]. rewrite H.
    cbv beta iota delta [andb].
    destruct (remove_background_traditional lab_lightness image). split; reflexivity.
  - cbv beta iota delta [andb].
    destruct (remove_background_traditional lab_lightness image). split; reflexivity.
Qed.

(** The theorem with an installed remover that raises. *)
Lemma preprocess_image_falls_back_witness :
  preprocess_image mean_lightness true rembg_fails (fun i => i) (fun i => i) two_image true
  = preprocess_image mean_lightness true rembg_fails (fun i => i) (fun i => i)
                     two_image false
  /\ snd (preprocess_image mean_lightness true rembg_fails (fun i => i) (fun i => i)
                           two_image true)
     = snd (remove_background_traditional mean_lightness two_image).
Proof.
  apply (preprocess_image_falls_back mean_lightness true rembg_fails
                                     (fun i => i) (fun i => i) two_image).
  right. exists "model not found"%string. reflexivity.
Defined.

(** ** The user's exclusion mask *)

Lemma fold_max_ge {A} (g : A -> Z) (l : list A) (o : A) :
  In o l -> g o <= fold_right (fun o acc => Z.max (g o) acc) 0 l.
Proof.
  induction l as [|a l IH]; simpl; [tauto|].
  intros [->|H]; [lia|]. specialize (IH H). lia.
Qed.

Lemma window5_origin : In (0, 0) (cv2.window 5).
Proof. cbn. intuition. Qed.

Lemma window5_bounds (o : Z * Z) :
  In o (cv2.window 5) -> -2 <= fst o <= 2 /\ -2 <= snd o <= 2.
Proof. cbn. intuition; subst; simpl; lia. Qed.

Lemma dilate5_grows (m : Mask) (y x : Z) :
  has_entry m y x -> np.getZ 0 m y x <= np.getZ 0 (cv2.dilate 5 m) y x.
Proof.
  intros (v & Hv). unfold np.getZ at 2. unfold cv2.dilate. rewrite entry_imap, Hv.
  pose proof (fold_max_ge (fun o => np.getZ 0 m (y + fst o) (x + snd o)) _ _
                          window5_origin) as H.
  cbv beta in H. change (fst (0, 0)) with 0 in H. change (snd (0, 0)) with 0 in H.
  rewrite !Z.add_0_r in H. exact H.
Qed.

Lemma dilate5_reach (m : Mask) (y x : Z) :
  0 < np.getZ 0 (cv2.dilate 5 m) y x ->
  exists y' x', y - 2 <= y' <= y + 2 /\ x - 2 <= x' <= x + 2 /\ 0 < np.getZ 0 m y' x'.
Proof.
  unfold np.getZ at 1. unfold cv2.dilate. rewrite entry_imap.
  destruct (np.entry m y x); [|lia]. intros H.
  apply fold_max_gt in H as (o & Ho & H); [|lia].
  apply window5_bounds in Ho.
  exists (y + fst o), (x + snd o). repeat split; try lia.
Qed.

Lemma row_lengths_imap {A B} (f : Z -> Z -> B) (a : np.array2 A) :
  row_lengths (np.imap f a) = row_lengths a.
Proof.
  unfold row_lengths, np.imap. rewrite map_map.
  enough (H : forall s,
             map (fun yr : nat * list A =>
                    List.length
                      (map (fun x => f (Z.of_nat (fst yr)) (Z.of_nat x))
                           (seq 0 (List.length (snd yr)))))
                 (combine (seq s (List.length a)) a)
             = map (@List.length A) a) by apply H.
  induction a as [|r a IH]; intros s; simpl; [reflexivity|].
  rewrite length_map, length_seq. f_equal. apply IH.
Qed.

Lemma row_lengths_map {A B} (f : A -> B) (a : np.array2 A) :
  row_lengths (map (map f) a) = row_lengths a.
Proof.
  unfold row_lengths. rewrite map_map. apply map_ext. intros r. apply length_map.
Qed.

Lemma has_entry_row_lengths {A B} (a : np.array2 A) (b : np.array2 B) (y x : Z) :
  row_lengths a = row_lengths b -> has_entry a y x -> has_entry b y x.
Proof.
  unfold has_entry, np.entry, row_lengths. intros E (v & H).
  destruct ((0 <=? y) && (0 <=? x)); [|discriminate].
  destruct (nth_error a (Z.to_nat y)) as [ra|] eqn:Ha; [|discriminate].
  pose proof (map_nth_error (@List.length A) _ _ Ha) as Hl. rewrite E in Hl.
  rewrite nth_error_map in Hl.
  destruct (nth_error b (Z.to_nat y)) as [rb|]; [|discriminate].
  injection Hl as Hlen.
  destruct (nth_error rb (Z.to_nat x)) as [w|] eqn:Hw; [eexists; reflexivity|].
  apply nth_error_None in Hw.
  assert (nth_error ra (Z.to_nat x) <> None) as Hx by congruence.
  apply nth_error_Some in Hx. lia.
Qed.

(** X13: on a binary image and an alpha array of one shape the user's mask
    returns, and it only removes: a pixel of the result is 0 or the pixel of
    the binary image; it is 0 wherever the alpha is above 50; and it is the
    pixel of the binary image wherever no alpha within 4 rows and columns is
    above 50. *)
Theorem apply_user_mask_only_removes (binary_image alpha : Mask) (y x b : Z) :
  same_shape binary_image alpha = true ->
  np.entry binary_image y x = Some b ->
  exists result,
    apply_user_mask_to_binary binary_image alpha = Returned result
    /\ (np.entry result y x = Some 0 \/ np.entry result y x = Some b)
    /\ (50 < np.getZ 0 alpha y x -> np.entry result y x = Some 0)
    /\ ((forall y' x', y - 4 <= y' <= y + 4 -> x - 4 <= x' <= x + 4 ->
                       np.getZ 0 alpha y' x' <= 50) ->
        np.entry result y x = Some b).
Proof.
  intros Hshape Hb. unfold apply_user_mask_to_binary.
  set (excl := map (map (fun a => if 50 <? a then 255 else 0)) alpha).
  change (Nat.iter 2 (cv2.dilate 5) excl) with (cv2.dilate 5 (cv2.dilate 5 excl)).
  unfold same_shape in Hshape |- *.
  destruct (list_eq_dec Nat.eq_dec (row_lengths binary_image) (row_lengths alpha))
    as [Hrl|]; [clear Hshape | discriminate].
  assert (Hrl' : row_lengths binary_image
                 = row_lengths (cv2.dilate 5 (cv2.dilate 5 excl))).
  { unfold cv2.dilate. rewrite !row_lengths_imap. unfold excl.
    rewrite row_lengths_map. exact Hrl. }
  destruct (list_eq_dec Nat.eq_dec (row_lengths binary_image)
                        (row_lengths (cv2.dilate 5 (cv2.dilate 5 excl))));
    [|contradiction].
  eexists. split; [reflexivity|].
  assert (Ha : has_entry alpha y x)
    by (apply (has_entry_row_lengths binary_image alpha y x Hrl); eexists; exact Hb).
  assert (Hexcl : forall y' x', np.getZ 0 excl y' x'
                                = if 50 <? np.getZ 0 alpha y' x' then 255 else 0).
  { intros y' x'. unfold np.getZ, excl. rewrite entry_map.
    destruct (np.entry alpha y' x'); reflexivity. }
  assert (He1 : has_entry excl y x)
    by (destruct Ha as (a & Ha); unfold has_entry, excl; rewrite entry_map, Ha;
        eexists; reflexivity).
  assert (He2 : has_entry (cv2.dilate 5 excl) y x) by (apply has_entry_imap, He1).
  assert (He3 : has_entry (cv2.dilate 5 (cv2.dilate 5 excl)) y x)
    by (apply has_entry_imap, He2).
  destruct He3 as (e' & He).
  rewrite entry_zip_with, Hb, He.
  assert (Ee : np.getZ 0 (cv2.dilate 5 (cv2.dilate 5 excl)) y x = e')
    by (unfold np.getZ; rewrite He; reflexivity).
  split; [destruct (0 <? e'); auto|]. split.
  - intros Halpha.
    pose proof (dilate5_grows excl y x He1) as H1.
    pose proof (dilate5_grows _ y x He2) as H2.
    rewrite Hexcl in H1. apply Z.ltb_lt in Halpha. rewrite Halpha in H1.
    assert (E : (0 <? e') = true) by (apply Z.ltb_lt; lia). rewrite E. reflexivity.
  - intros Hfar.
    destruct (0 <? e') eqn:E; [|reflexivity]. exfalso.
    apply Z.ltb_lt in E. rewrite <- Ee in E.
    apply dilate5_reach in E as (y1 & x1 & Hy1 & Hx1 & E).
    apply dilate5_reach in E as (y2 & x2 & Hy2 & Hx2 & E).
    rewrite Hexcl in E.
    specialize (Hfar y2 x2 ltac:(lia) ltac:(lia)).
    assert (E' : (50 <? np.getZ 0 alpha y2 x2) = false) by (apply Z.ltb_ge; exact Hfar).
    rewrite E' in E. lia.
Qed.

(** The theorem at the stroke drawing, for the pixel 6 columns from the
    marked one. *)
Lemma apply_user_mask_only_removes_witness :
  exists result,
    apply_user_mask_to_binary strokes marked = Returned result
    /\ (np.entry result 1 6 = Some 0 \/ np.entry result 1 6 = Some 255)
    /\ (50 < np.getZ 0 marked 1 6 -> np.entry result 1 6 = Some 0)
    /\ ((forall y' x', 1 - 4 <= y' <= 1 + 4 -> 6 - 4 <= x' <= 6 + 4 ->
                       np.getZ 0 marked y' x' <= 50) ->
        np.entry result 1 6 = Some 255).
Proof.
  apply (apply_user_mask_only_removes strokes marked 1 6 255); reflexivity.
Defined.

(** ** Stage 5: the metadata comment *)

Lemma str_app_assoc (a b c : string) : ((a ++ b) ++ c = a ++ (b ++ c))%string.
Proof. induction a as [|x a IH]; simpl; [reflexivity | rewrite IH; reflexivity]. Qed.

Lemma through_gt_no_gt (a b : string) :
  no_gt a = true ->
  postprocessing.through_gt (a ++ b)
  = option_map (append a) (postprocessing.through_gt b).
Proof.
  induction a as [|c a IH]; simpl; intros H.
  - destruct (postprocessing.through_gt b); reflexivity.
  - apply andb_true_iff in H as (Hc & Ha). apply negb_true_iff in Hc.
    rewrite Hc, (IH Ha). destruct (postprocessing.through_gt b); reflexivity.
Qed.

Lemma through_gt_app (a b t : string) :
  postprocessing.through_gt a = Some t -> postprocessing.through_gt (a ++ b) = Some t.
Proof.
  revert t. induction a as [|c a IH]; simpl; intros t H; [discriminate|].
  destruct (Ascii.eqb c ">"); [exact H|].
  destruct (postprocessing.through_gt a) as [u|]; [|discriminate].
  rewrite (IH u eq_refl). exact H.
Qed.

Lemma no_gt_uint (d : Decimal.uint) : no_gt (NilEmpty.string_of_uint d) = true.
Proof. induction d; simpl; auto. Qed.

Lemma no_gt_str_of_nat (n : nat) : no_gt (str_of_nat n) = true.
Proof.
  unfold str_of_nat, NilZero.string_of_uint.
  destruct (Nat.to_uint n) eqn:E; try reflexivity; rewrite <- E; apply no_gt_uint.
Qed.

Lemma through_gt_svg_open_tag (w h : nat) :
  postprocessing.through_gt (svg_open_tag w h) = Some (svg_open_tag w h).
Proof.
  unfold svg_open_tag.
  repeat (rewrite through_gt_no_gt;
          [|first [reflexivity | apply no_gt_str_of_nat]]).
  reflexivity.
Qed.

Lemma re_search_svg_open_tag (w h : nat) (rest : string) :
  postprocessing.re_search_svg_tag (svg_open_tag w h ++ rest) = Some (svg_open_tag w h).
Proof.
  pose proof (through_gt_app _ rest _ (through_gt_svg_open_tag w h)) as H.
  remember (svg_open_tag w h ++ rest)%string as s eqn:Es.
  assert (Hp : prefix "<svg" s = true) by (subst s; reflexivity).
  destruct s as [|c s]; [discriminate|].
  unfold postprocessing.re_search_svg_tag. rewrite Hp, H. reflexivity.
Qed.

Lemma prefix_app (a b : string) : prefix a (a ++ b) = true.
Proof.
  induction a as [|c a IH]; simpl; [destruct b; reflexivity|].
  destruct (ascii_dec c c); [exact IH | contradiction].
Qed.

Lemma replace_from_skip (old new a b : string) :
  replace_from old new (String.length a) (a ++ b) = replace_from old new 0 b.
Proof.
  induction a as [|c a IH]; simpl; [reflexivity|].
  destruct a as [|c' a]; [destruct b; reflexivity|]. exact IH.
Qed.

Lemma str_replace_prefix (old new rest : string) :
  old <> EmptyString ->
  str_replace (old ++ rest) old new = (new ++ str_replace rest old new)%string.
Proof.
  intros Hold. unfold str_replace.
  destruct old as [|c old]; [contradiction|].
  change (String c old ++ rest)%string with (String c (old ++ rest)).
  cbn [replace_from].
  change (String c (old ++ rest)) with (String c old ++ rest)%string.
  rewrite prefix_app.
  replace (String.length (String c old) - 1)%nat with (String.length old)
    by (simpl; lia).
  rewrite replace_from_skip. reflexivity.
Qed.

Lemma svg_open_tag_nonempty (w h : nat) : svg_open_tag w h <> EmptyString.
Proof. unfold svg_open_tag. simpl. discriminate. Qed.

(** The comment lands right after the root tag of a document that starts
    with it. *)
Lemma add_metadata_after_root (time : string) (w h : nat) (rest : string)
      (colors : list ColorInfo) (original_size : nat * nat) (style : string) :
  exists rest',
    postprocessing.add_metadata time (svg_open_tag w h ++ rest) colors original_size style
    = (svg_open_tag w h ++ nl
         ++ postprocessing.metadata_comment colors original_size style time
         ++ rest')%string.
Proof.
  unfold postprocessing.add_metadata. rewrite re_search_svg_open_tag. cbv zeta.
  rewrite str_replace_prefix by apply svg_open_tag_nonempty.
  eexists. rewrite !str_app_assoc. reflexivity.
Qed.

Lemma vectorize_regions_starts_with_root
      (potrace : Mask -> string -> string -> string -> TraceRun)
      (find_paths : string -> list string) (re_sub_fill : string -> string -> string)
      (regions : list ColorRegion) (w h : nat) (style : bool) :
  exists rest,
    vectorize_regions potrace find_paths re_sub_fill regions w h style
    = (svg_open_tag w h ++ rest)%string.
Proof.
  unfold vectorize_regions. rewrite svg_parts_groups.
  cbn [app String.concat]. eexists. reflexivity.
Qed.

(** X14: the document of every success response starts with the root tag
    for the processed size, a line break, and the metadata comment for the
    palette, the size of the upload and the style of the response. *)
Theorem success_document_starts_with_metadata
        (kmeans : nat -> list Pixel -> result KMeansFit)
        (potrace : Mask -> string -> string -> string -> TraceRun)
        (find_paths : string -> list string) (re_sub_fill : string -> string -> string)
        (time : string) (original_size : nat * nat) (image : Image) (mask : Mask)
        (colorCount : Z) (preserve_style : bool)
        (svg : string) (colors : list ColorInfo) (originalSize processedSize : nat * nat)
        (nColors nRegions : nat) (style : string) :
  process_image kmeans potrace find_paths re_sub_fill (postprocessing.add_metadata time)
                original_size image mask colorCount preserve_style
  = Success200 svg colors originalSize processedSize nColors nRegions style ->
  exists rest,
    svg = (svg_open_tag (fst processedSize) (snd processedSize) ++ nl
             ++ postprocessing.metadata_comment colors originalSize style time
             ++ rest)%string.
Proof.
  unfold process_image.
  destruct (create_color_map kmeans image mask (Z.max 3 (Z.min 7 colorCount)))
    as [(palette, flattened)|msg]; [|discriminate].
  destruct palette as [|c palette]; [discriminate|].
  destruct (segment_by_color flattened mask (c :: palette) preserve_style)
    as [|r regions]; [discriminate|].
  rewrite vectorize_regions_passes_guard.
  intros H. injection H as <- <- <- <- _ _ <-.
  unfold postprocess_svg, organize_svg_layers, optimize_svg_paths.
  destruct (vectorize_regions_starts_with_root potrace find_paths re_sub_fill
              (r :: regions) (np.cols image) (np.rows image) preserve_style)
    as (rest & ->).
  apply add_metadata_after_root.
Qed.

(** The theorem at the two-drawing image, with a tracer that writes one
    path for each region. *)
Lemma success_document_starts_with_metadata_witness :
  exists rest,
    postprocess_svg (postprocessing.add_metadata "0.42")
                    (vectorize_regions potrace_one_path find_one_path re_sub_fill_done
                                       two_regions 34 26 true)
                    (fst two_color_map) (34, 26)%nat "authentic"
    = (svg_open_tag 34 26 ++ nl
         ++ postprocessing.metadata_comment (fst two_color_map) (34, 26)%nat
                                            "authentic" "0.42"
         ++ rest)%string.
Proof.
  apply (success_document_starts_with_metadata
           (kmeans_of [bgr_of teal; bgr_of rust]) potrace_one_path find_one_path
           re_sub_fill_done "0.42" (34, 26)%nat two_image two_mask 5 true
           _ (fst two_color_map) (34, 26)%nat (34, 26)%nat 2%nat 2%nat "authentic").
  vm_compute. reflexivity.
Defined.

(** ** The monochrome pipeline *)

Lemma near_close3x1 (m : Mask) : near 1 1 (cv2.morphologyEx m cv2.MORPH_CLOSE 3 1) m.
Proof.
  exact (near_trans 0 0 1 1 _ _ _ (near_erode3 (cv2.dilate 3 m)) (near_dilate3 m)).
Qed.

Lemma near_open3x1 (m : Mask) : near 1 1 (cv2.morphologyEx m cv2.MORPH_OPEN 3 1) m.
Proof.
  exact (near_trans 1 1 0 0 _ _ _ (near_dilate3 (cv2.erode 3 m)) (near_erode3 m)).
Qed.

Lemma is_set_keep_fold (labels : np.array2 nat) (stats : list Z) (min : Z)
      (l : list nat) (output : Mask) (y x : Z) :
  is_set (fold_left (fun output i =>
                       let area := nth i stats 0 in
                       if min <=? area then app.keep_label labels i output else output)
                    l output) y x ->
  is_set output y x
  \/ exists i, In i l /\ min <= nth i stats 0 /\ np.entry labels y x = Some i.
Proof.
  revert output. induction l as [|a l IH]; intros output H; simpl in H; [left; exact H|].
  apply IH in H as [H|(i & Hi & Hmin & Hl)]; [|right; exists i; simpl; auto].
  destruct (min <=? nth a stats 0) eqn:E; [|left; exact H].
  apply Z.leb_le in E. unfold is_set, np.getZ, app.keep_label in H.
  rewrite entry_zip_with in H.
  destruct (np.entry output y x) as [o|] eqn:Ho; [|lia].
  destruct (np.entry labels y x) as [lab|] eqn:Hlab; [|lia].
  destruct (Nat.eqb_spec lab a) as [->|_].
  - right. exists a. simpl. auto.
  - left. unfold is_set, np.getZ. rewrite Ho. exact H.
Qed.

(** X15: whatever the blur and the labelling give, a set pixel of
    the cleaned image lies within 2 rows and columns of a pixel whose
    component, other than the background, has at least [min_artifact_size]
    pixels. *)
Theorem clean_noise_keeps_only_large
        (medianBlur : Mask -> Mask)
        (connectedComponentsWithStats : Mask -> nat * np.array2 nat * list Z)
        (binary_image : Mask) (min_artifact_size : Z) (y x : Z) :
  is_set (app.clean_noise medianBlur connectedComponentsWithStats
                          binary_image min_artifact_size) y x ->
  let '(num_labels, labels, stats) :=
    connectedComponentsWithStats (medianBlur binary_image) in
  exists y' x' i,
    y - 2 <= y' <= y + 2 /\ x - 2 <= x' <= x + 2
    /\ (1 <= i < num_labels)%nat
    /\ min_artifact_size <= nth i stats 0
    /\ np.entry labels y' x' = Some i.
Proof.
  unfold app.clean_noise.
  destruct (connectedComponentsWithStats (medianBlur binary_image))
    as ((num_labels, labels), stats).
  intros H.
  apply near_open3x1 in H as (y1 & x1 & Hy1 & Hx1 & H).
  apply near_close3x1 in H as (y2 & x2 & Hy2 & Hx2 & H).
  apply is_set_keep_fold in H as [H|(i & Hi & Hmin & Hl)].
  - exfalso. unfold is_set, np.getZ in H. rewrite entry_map in H.
    destruct (np.entry (medianBlur binary_image) y2 x2); simpl in H; lia.
  - exists y2, x2, i. apply in_seq in Hi. repeat split; try lia; assumption.
Qed.

(** The theorem at the 2 by 2 block, with no blur and its set pixels as
    one component of area 4. *)
Lemma clean_noise_keeps_only_large_witness :
  exists y' x' i,
    2 - 2 <= y' <= 2 + 2 /\ 2 - 2 <= x' <= 2 + 2
    /\ (1 <= i < 2)%nat
    /\ 4 <= nth i [21; 4] 0
    /\ np.entry (map (map (fun v => if 128 <? v then 1%nat else 0%nat)) small_block)
                y' x' = Some i.
Proof.
  apply (clean_noise_keeps_only_large (fun m => m) one_component small_block 4 2 2).
  vm_compute. reflexivity.
Defined.

Lemma length_replace_from (old new : string) (s : string) (skip : nat) :
  (1 <= String.length old <= String.length new)%nat ->
  (String.length s <= String.length (replace_from old new skip s) + skip)%nat.
Proof.
  intros Hlen. revert skip. induction s as [|c s IH]; intros skip; [simpl; lia|].
  cbn [replace_from]. destruct skip as [|k].
  - destruct (prefix old (String c s)).
    + rewrite string_length_append.
      specialize (IH (String.length old - 1)%nat). cbn [String.length]. lia.
    + cbn [String.length]. specialize (IH 0%nat). lia.
  - specialize (IH k). cbn [String.length]. lia.
Qed.

Lemma length_str_replace (s old new : string) :
  (1 <= String.length old <= String.length new)%nat ->
  (String.length s <= String.length (str_replace s old new))%nat.
Proof.
  intros Hlen. unfold str_replace.
  pose proof (length_replace_from old new s 0 Hlen). lia.
Qed.

Lemma vectorize_with_potrace_returned
      (potrace : Mask -> string -> string -> app.TraceRun)
      (binary_image : Mask) (invert_colors : bool) (turdsize : Z) (svg : string) :
  app.vectorize_with_potrace potrace binary_image invert_colors turdsize
  = Returned svg ->
  exists out,
    potrace (map (map (fun v => 255 - v)) binary_image) (str_of_int turdsize)
            (if invert_colors then "#FFFFFF" else "#000000")%string
    = app.OutputFile out
    /\ (50 <= String.length out <= String.length svg)%nat
    /\ (invert_colors = false -> svg = out).
Proof.
  unfold app.vectorize_with_potrace.
  destruct (potrace _ _ _) as [| |stderr stdout| |msg| |out]; try discriminate.
  destruct (negb (truthy out) || (String.length out <? 50)%nat) eqn:E;
    [discriminate|].
  apply orb_false_iff in E as (_ & E). apply Nat.ltb_ge in E.
  intros H. injection H as <-.
  exists out. split; [reflexivity|]. split.
  - split; [exact E|]. destruct invert_colors; [|lia].
    cbv zeta.
    repeat match goal with
           | |- (_ <= String.length (str_replace ?s ?o ?n))%nat =>
               apply (Nat.le_trans _ (String.length s));
               [|apply length_str_replace; vm_compute; lia]
           end.
    lia.
  - intros ->. reflexivity.
Qed.

(** X16: the monochrome vectorizer returns exactly when the tracer left
    a file of at least 50 characters, and raises otherwise; what it returns
    is never shorter than that file, and is that file when the colours are
    not inverted. *)
Theorem vectorize_with_potrace_returns
        (potrace : Mask -> string -> string -> app.TraceRun)
        (binary_image : Mask) (invert_colors : bool) (turdsize : Z) :
  let run := potrace (map (map (fun v => 255 - v)) binary_image) (str_of_int turdsize)
                     (if invert_colors then "#FFFFFF" else "#000000")%string in
  match app.vectorize_with_potrace potrace binary_image invert_colors turdsize with
  | Returned svg =>
      exists out, run = app.OutputFile out
                  /\ (50 <= String.length out <= String.length svg)%nat
                  /\ (invert_colors = false -> svg = out)
  | Raised _ => forall out, run = app.OutputFile out -> (String.length out < 50)%nat
  end.
Proof.
  cbv zeta.
  destruct (app.vectorize_with_potrace potrace binary_image invert_colors turdsize)
    as [svg|msg] eqn:Ev.
  - exact (vectorize_with_potrace_returned _ _ _ _ _ Ev).
  - intros out Hout. unfold app.vectorize_with_potrace in Ev. rewrite Hout in Ev.
    destruct (negb (truthy out) || (String.length out <? 50)%nat) eqn:E;
      [|discriminate].
    apply orb_true_iff in E as [E|E].
    + destruct out; [simpl; lia | discriminate].
    + apply Nat.ltb_lt in E. exact E.
Qed.





(** ** Stage 4 and its temporary files *)

Lemma In_cleanup (unlink : string -> result unit) (paths : list (option string))
      (files : list string) (q : string) :
  In q (fs.cleanup unlink files paths) -> In q files.
Proof.
  revert files. induction paths as [|path paths IH]; intros files H; [exact H|].
  simpl in H. apply IH in H. destruct path as [p|]; [|exact H].
  destruct (truthy p && fs.exists_ files p); [|exact H].
  destruct (unlink p); [|exact H].
  apply in_remove in H. tauto.
Qed.

Lemma cleanup_removes (unlink : string -> result unit) (paths : list (option string))
      (files : list string) (p : string) :
  (forall p', exists u, unlink p' = Returned u) ->
  p <> EmptyString ->
  In (Some p) paths -> ~ In p (fs.cleanup unlink files paths).
Proof.
  intros Hun Hp. revert files.
  induction paths as [|path paths IH]; intros files Hin; [contradiction|].
  destruct Hin as [->|Hin]; [|apply IH; exact Hin].
  simpl. intros H. apply In_cleanup in H.
  destruct p as [|c p]; [contradiction|]. simpl truthy in H. simpl andb in H.
  destruct (fs.exists_ files (String c p)) eqn:E.
  - destruct (Hun (String c p)) as (u & Hu). rewrite Hu in H.
    apply in_remove in H. tauto.
  - unfold fs.exists_ in E.
    assert (Hex : existsb (String.eqb (String c p)) files = true)
      by (apply existsb_exists; exists (String c p); split;
          [exact H | apply String.eqb_refl]).
    congruence.
Qed.

(** X18: when [cv2.imwrite] returns and [os.unlink] does not fail, the
    tracer of stage 4 leaves no file behind: every file that exists after the
    call existed before it, and neither temporary file is among them; and
    what it returns is what the run of potrace gives. *)
Theorem vectorize_mask_to_svg_cleans_up
        (NamedTemporaryFile : string -> list string -> result string)
        (imwrite : string -> Mask -> result bool)
        (potrace : Mask -> string -> string -> string -> TraceRun)
        (unlink : string -> result unit)
        (files : list string) (mask : Mask) (color_hex : string)
        (width height : nat) (preserve_style : bool)
        (tmp_input tmp_output : string) :
  (forall p, exists u, unlink p = Returned u) ->
  (forall p m, exists b, imwrite p m = Returned b) ->
  NamedTemporaryFile ".bmp"%string files = Returned tmp_input ->
  NamedTemporaryFile ".svg"%string (tmp_input :: files) = Returned tmp_output ->
  tmp_input <> EmptyString -> tmp_output <> EmptyString ->
  let '(svg_content, files') :=
    fs.vectorize_mask_to_svg NamedTemporaryFile imwrite potrace unlink
                             files mask color_hex width height preserve_style in
  svg_content = vectorize_mask_to_svg potrace mask color_hex width height preserve_style
  /\ (forall q, In q files' -> In q files)
  /\ ~ In tmp_input files' /\ ~ In tmp_output files'.
Proof.
  intros Hun Him Hin Hout Hi Ho.
  unfold fs.vectorize_mask_to_svg, vectorize_mask_to_svg. rewrite Hin.
  destruct (Him tmp_input (map (map (fun v => 255 - v)) mask)) as (b & ->).
  rewrite Hout.
  assert (Hsub : forall fl q,
             (forall q', In q' fl -> In q' (tmp_output :: tmp_input :: files)) ->
             In q (fs.cleanup unlink fl [Some tmp_input; Some tmp_output]) ->
             In q files).
  { intros fl q Hfl Hq.
    assert (Hni : ~ In tmp_input (fs.cleanup unlink fl [Some tmp_input; Some tmp_output]))
      by (apply cleanup_removes; simpl; auto).
    assert (Hno : ~ In tmp_output (fs.cleanup unlink fl [Some tmp_input; Some tmp_output]))
      by (apply cleanup_removes; simpl; auto).
    pose proof (In_cleanup _ _ _ _ Hq) as Hq'. apply Hfl in Hq'.
    destruct Hq' as [<-|[<-|Hq']]; [contradiction | contradiction | exact Hq']. }
  destruct (potrace _ _ _ _) as [| |svg_content].
  - split; [reflexivity|]. split; [|split; apply cleanup_removes; simpl; auto].
    intros q. apply Hsub. auto.
  - split; [reflexivity|]. split; [|split; apply cleanup_removes; simpl; auto].
    intros q. apply Hsub. intros q' Hq'. apply in_remove in Hq'. tauto.
  - split; [reflexivity|]. split; [|split; apply cleanup_removes; simpl; auto].
    intros q. apply Hsub. auto.
Qed.

(** The theorem for a run that writes one path, among two files. *)
Lemma vectorize_mask_to_svg_cleans_up_witness :
  let '(svg_content, files') :=
    fs.vectorize_mask_to_svg tmp_name imwrite_done potrace_one_path unlink_done
                             ["/tmp/a"; "/tmp/b"]%string small_block "#6496c8" 5 5 true in
  svg_content = vectorize_mask_to_svg potrace_one_path small_block "#6496c8" 5 5 true
  /\ (forall q, In q files' -> In q ["/tmp/a"; "/tmp/b"]%string)
  /\ ~ In "/tmp/tmp2.bmp"%string files' /\ ~ In "/tmp/tmp3.svg"%string files'.
Proof.
  apply (vectorize_mask_to_svg_cleans_up
           tmp_name imwrite_done potrace_one_path unlink_done
           ["/tmp/a"; "/tmp/b"]%string small_block "#6496c8" 5 5 true
           "/tmp/tmp2.bmp" "/tmp/tmp3.svg").
  - intros p. exists tt. reflexivity.
  - intros p m. exists true. reflexivity.
  - reflexivity.
  - reflexivity.
  - discriminate.
  - discriminate.
Defined.

(** X19: when [cv2.imwrite] raises, the tracer returns the empty string
    and leaves the bitmap file behind, whatever [os.unlink] would do: the
    path variable of the [finally] block is assigned after the call. *)
Theorem vectorize_mask_to_svg_leaves_bitmap
        (NamedTemporaryFile : string -> list string -> result string)
        (imwrite : string -> Mask -> result bool)
        (potrace : Mask -> string -> string -> string -> TraceRun)
        (unlink : string -> result unit)
        (files : list string) (mask : Mask) (color_hex : string)
        (width height : nat) (preserve_style : bool)
        (tmp_input msg : string) :
  NamedTemporaryFile ".bmp"%string files = Returned tmp_input ->
  imwrite tmp_input (map (map (fun v => 255 - v)) mask) = Raised msg ->
  fs.vectorize_mask_to_svg NamedTemporaryFile imwrite potrace unlink
                           files mask color_hex width height preserve_style
  = (EmptyString, tmp_input :: files).
Proof.
  intros Hin Him. unfold fs.vectorize_mask_to_svg. rewrite Hin, Him. reflexivity.
Qed.

(** The theorem for an [imwrite] that raises, among two files. *)
Lemma vectorize_mask_to_svg_leaves_bitmap_witness :
  fs.vectorize_mask_to_svg tmp_name imwrite_raises potrace_one_path unlink_done
                           ["/tmp/a"; "/tmp/b"]%string small_block "#6496c8" 5 5 true
  = (EmptyString, ["/tmp/tmp2.bmp"; "/tmp/a"; "/tmp/b"]%string).
Proof.
  apply (vectorize_mask_to_svg_leaves_bitmap
           tmp_name imwrite_raises potrace_one_path unlink_done
           ["/tmp/a"; "/tmp/b"]%string small_block "#6496c8" 5 5 true
           "/tmp/tmp2.bmp" "cv2.error"); reflexivity.
Defined.
